(** * LiteX-Boards, Crosslink-NX evaluation board targets

    A shallow embedding of [litex_boards/targets/crosslink_nx_evn.py] (and of
    its twin [crosslink_nx_eval.py], which differs only in the names of the
    platform module and of the LRAM core), with the properties of the
    clock/reset generator [_CRG], of [BaseSoC] and of [main].

    The file has three parts:
    - [CRG]: the synchronous logic that [_CRG.__init__] describes, as a
      transition system over the two clock domains [por] and [sys];
    - [Py]: the few Python builtins [main] relies on ([float], [int], true
      division), over IEEE 754 binary64 numbers;
    - [Target]: the construction code ([_CRG.__init__], [BaseSoC.__init__],
      [main]) as state-passing code over the record of calls it makes to the
      framework. *)

From Stdlib Require Import ZArith QArith Bool List Ascii String Floats Lia.
From Stdlib Require Import Qabs DecimalString DecimalN DecimalPos.
From stdpp Require Import base list strings gmap.
Import ListNotations.

Local Open Scope Z_scope.
Set Warnings "-inexact-float".

(** ** The clock/reset generator as a transition system *)

Module CRG.

(** [por_count = Signal(16, reset=2**16-1)]: a 16-bit register; an
    assignment keeps the low 16 bits of the value assigned. *)
Definition por_count_bits : Z := 16.
Definition por_count_reset : Z := 2 ^ 16 - 1.
Definition trunc16 (v : Z) : Z := v mod 2 ^ por_count_bits.

(** The signals the generator reads from outside: the pad [gsrn]
    ([self.rst_n], active low) and the PLL's [locked] output. *)
Record pins := Pins { rst_n : bool; locked : bool }.

(** [AsyncResetSynchronizer(cd, async_reset)]: two flip-flops clocked by
    [cd.clk], the first fed with 0, the second fed by the first and driving
    [cd.rst]; [async_reset] presets both asynchronously. *)
Record synchronizer := Sync { rst1 : bool; rst : bool }.

Definition sync_preset (async_reset : bool) (f : synchronizer) : synchronizer :=
  if async_reset then Sync true true else f.

Definition sync_clock (f : synchronizer) : synchronizer :=
  Sync false (rst1 f).

(** The state: the pins as they are driven now, the counter, and the reset
    synchronizers of [cd_por] and [cd_sys]. *)
Record state := State {
  io : pins;
  por_count : Z;
  por_sync : synchronizer;
  sys_sync : synchronizer
}.

(** [self.comb += por_done.eq(por_count == 0)] *)
Definition por_done (s : state) : bool := por_count s =? 0.

(** The reset lines of the two domains. *)
Definition cd_por_rst (s : state) : bool := rst (por_sync s).
Definition cd_sys_rst (s : state) : bool := rst (sys_sync s).

(** [~self.rst_n], the asynchronous reset of [cd_por]. *)
Definition por_async_reset (s : state) : bool := negb (rst_n (io s)).

(** [~self.sys_pll.locked | ~por_done], the asynchronous reset of [cd_sys]. *)
Definition sys_async_reset (s : state) : bool :=
  negb (locked (io s)) || negb (por_done s).

(** Asynchronous presets take effect without a clock. *)
Definition settle (s : state) : state :=
  State (io s) (por_count s)
        (sync_preset (por_async_reset s) (por_sync s))
        (sync_preset (sys_async_reset s) (sys_sync s)).

Definition drive (i : pins) (s : state) : state :=
  settle (State i (por_count s) (por_sync s) (sys_sync s)).

(** [self.sync.por += If(~por_done, por_count.eq(por_count - 1))].
    [cd_por = ClockDomain()] has a reset, so the register is reloaded with
    its reset value on a clock edge that finds [cd_por.rst] asserted; the
    reset has priority over the statement. *)
Definition por_count_next (s : state) : Z :=
  if cd_por_rst s then por_count_reset
  else if negb (por_done s) then trunc16 (por_count s - 1)
  else por_count s.

Definition por_edge (s : state) : state :=
  settle (State (io s) (por_count_next s) (sync_clock (por_sync s)) (sys_sync s)).

Definition sys_edge (s : state) : state :=
  settle (State (io s) (por_count s) (por_sync s) (sync_clock (sys_sync s))).

(** One step: the pins take their new values, then at most one clock ticks.
    The two clocks are free-running and unrelated, so a trace interleaves
    them in any order. *)
Inductive clock := Por | Sys | Quiet.

Definition event : Type := clock * pins.

Definition tick (c : clock) (s : state) : state :=
  match c with
  | Por => por_edge s
  | Sys => sys_edge s
  | Quiet => s
  end.

Definition step (s : state) (e : event) : state :=
  tick (fst e) (drive (snd e) s).

Definition run (s : state) (tr : list event) : state :=
  fold_left step tr s.

(** Power-up: the counter holds its reset value; the flip-flops of the
    synchronizers hold whatever they hold. *)
Definition power_up (i : pins) (p q : synchronizer) : state :=
  settle (State i por_count_reset p q).

Definition is_por (e : event) : bool :=
  match fst e with Por => true | _ => false end.

(** The number of [por] clock edges of a trace. *)
Fixpoint por_cycles (tr : list event) : Z :=
  match tr with
  | [] => 0
  | e :: tr' => (if is_por e then 1 else 0) + por_cycles tr'
  end.

(** A run: a trace no [por] clock edge of which finds [cd_por] in reset. *)
Fixpoint in_run (s : state) (tr : list event) : bool :=
  match tr with
  | [] => true
  | e :: tr' =>
      (if is_por e then negb (cd_por_rst (drive (snd e) s)) else true)
      && in_run (step s e) tr'
  end.

(** The pad [gsrn] is held high along the trace. *)
Definition released (tr : list event) : bool :=
  forallb (fun e : event => rst_n (snd e)) tr.

(** Settled states: the presets have taken effect. *)
Definition settled (s : state) : Prop :=
  (por_async_reset s = true -> por_sync s = Sync true true) /\
  (sys_async_reset s = true -> sys_sync s = Sync true true).

(** The counter is within its 16 bits. *)
Definition in_range (s : state) : Prop := 0 <= por_count s <= por_count_reset.

(** Some pins and traces to run the generator on: [gsrn] high or low, the
    PLL locked or not, flip-flops set or clear, and [n] edges of one clock
    with the pins held. *)
Definition up : pins := Pins true true.
Definition unlocked : pins := Pins true false.
Definition pressed : pins := Pins false true.
Definition clear : synchronizer := Sync false false.
Definition set : synchronizer := Sync true true.
Definition hold (n : Z) (c : clock) (i : pins) : list event :=
  repeat (c, i) (Z.to_nat n).

(** The number of [sys] clock edges of a trace. *)
Definition is_sys (e : event) : bool :=
  match fst e with Sys => true | _ => false end.

Fixpoint sys_cycles (tr : list event) : Z :=
  match tr with
  | [] => 0
  | e :: tr' => (if is_sys e then 1 else 0) + sys_cycles tr'
  end.

(** The pad [gsrn] is held high and the PLL stays locked along the trace. *)
Definition steady (tr : list event) : bool :=
  forallb (fun e : event => rst_n (snd e) && locked (snd e)) tr.

(** The [por] domain: its counter and its reset synchronizer. *)
Definition por_view (s : state) : Z * synchronizer :=
  (por_count s, por_sync s).

(** An event as the [por] domain could tell it from others: the [sys] clock
    does not tick and the PLL is locked. *)
Definition por_only (e : event) : event :=
  (match fst e with Sys => Quiet | c => c end, Pins (rst_n (snd e)) true).

(** How many [por] edges will still find [cd_por] in reset, with [gsrn]
    high: the flip-flops of its synchronizer empty one per edge. *)
Definition por_reset_edges (s : state) : Z :=
  if rst1 (por_sync s) then 2 else if rst (por_sync s) then 1 else 0.

(** The synchronizer of [cd_sys] holds no reset that [cd_sys.rst] does not
    show. *)
Definition sys_sync_ordered (s : state) : Prop :=
  rst1 (sys_sync s) = true -> rst (sys_sync s) = true.

(** The [por] edges left, with [gsrn] high, until the counter is done. *)
Definition por_edges_left (s : state) : Z :=
  if por_reset_edges s =? 0 then por_count s
  else por_count_reset + por_reset_edges s.

End CRG.

(** ** The Python builtins used by [main] and by [_CRG.__init__] *)

Module Py.

Inductive exn :=
| ValueError | OverflowError | ZeroDivisionError | TypeError | KeyError.

Inductive result (A : Type) :=
| Ok (a : A)
| Raise (e : exn).
Arguments Ok {A} a.
Arguments Raise {A} e.

Definition bind {A B} (r : result A) (k : A -> result B) : result B :=
  match r with
  | Ok a => k a
  | Raise e => Raise e
  end.

(** Python's [float] is IEEE 754 binary64, rounding to nearest, ties to
    even. *)
Definition round_binary64 (m e : Z) : spec_float :=
  binary_normalize prec emax m e false.

(** The float nearest to [(-1)^neg * m * 10^e], for [0 <= m].  A negative
    power of ten is divided out with 64 spare bits and a sticky bit, which
    is enough for the rounding to 53 bits to be that of the exact value. *)
Definition decimal_to_float (neg : bool) (m e : Z) : float :=
  let sf :=
    if m =? 0 then S754_zero false
    else if 0 <=? e then round_binary64 (m * 10 ^ e) 0
    else
      let k := 10 ^ (- e) in
      let s := 64 + Z.log2_up k in
      let q := (m * 2 ^ s) / k in
      let sticky := if (m * 2 ^ s) mod k =? 0 then 0 else 1 in
      round_binary64 (2 * q + sticky) (- (s + 1)) in
  SF2Prim (if neg then SFopp sf else sf).

(** *** Parsing a number in ASCII characters *)

Definition code (c : ascii) : Z := Z.of_N (N_of_ascii c).

Definition digit_of (c : ascii) : option Z :=
  let n := code c in
  if (48 <=? n) && (n <=? 57) then Some (n - 48) else None.

(** Leading and trailing whitespace is ignored: tab to carriage return,
    and the space. *)
Definition is_space (c : ascii) : bool :=
  let n := code c in
  ((9 <=? n) && (n <=? 13)) || (n =? 32).

Fixpoint lstrip (s : list ascii) : list ascii :=
  match s with
  | c :: s' => if is_space c then lstrip s' else s
  | [] => []
  end.

Definition strip (s : list ascii) : list ascii :=
  rev (lstrip (rev (lstrip s))).

Definition lower (c : ascii) : ascii :=
  let n := code c in
  if (65 <=? n) && (n <=? 90) then ascii_of_N (Z.to_N (n + 32)) else c.

(** [digit (["_"] digit)*] after its first digit: the value read so far,
    the number of digits read, and what is left. *)
Fixpoint digits_tail (acc k : Z) (s : list ascii) : Z * Z * list ascii :=
  match s with
  | c :: s' =>
      match digit_of c with
      | Some d => digits_tail (10 * acc + d) (k + 1) s'
      | None =>
          if Ascii.eqb c "_" then
            match s' with
            | c' :: s'' =>
                match digit_of c' with
                | Some d => digits_tail (10 * acc + d) (k + 1) s''
                | None => (acc, k, s)
                end
            | [] => (acc, k, s)
            end
          else (acc, k, s)
      end
  | [] => (acc, k, s)
  end.

Definition digitpart (s : list ascii) : option (Z * Z * list ascii) :=
  match s with
  | c :: s' =>
      match digit_of c with
      | Some d => Some (digits_tail d 1 s')
      | None => None
      end
  | [] => None
  end.

Definition sign (s : list ascii) : bool * list ascii :=
  match s with
  | c :: s' =>
      if Ascii.eqb c "-" then (true, s')
      else if Ascii.eqb c "+" then (false, s')
      else (false, s)
  | [] => (false, s)
  end.

(** [[digitpart] "." digitpart | digitpart ["."]]: mantissa, decimal
    exponent, and what is left. *)
Definition number (s : list ascii) : option (Z * Z * list ascii) :=
  match digitpart s with
  | Some (ip, _, r) =>
      match r with
      | c :: r' =>
          if Ascii.eqb c "." then
            match digitpart r' with
            | Some (fp, k, r'') => Some (ip * 10 ^ k + fp, - k, r'')
            | None => Some (ip, 0, r')
            end
          else Some (ip, 0, r)
      | [] => Some (ip, 0, r)
      end
  | None =>
      match s with
      | c :: r' =>
          if Ascii.eqb c "." then
            match digitpart r' with
            | Some (fp, k, r'') => Some (fp, - k, r'')
            | None => None
            end
          else None
      | [] => None
      end
  end.

(** [("e" | "E") [sign] digitpart], when there is one. *)
Definition exponent (s : list ascii) : Z * list ascii :=
  match s with
  | c :: s' =>
      if Ascii.eqb (lower c) "e" then
        let '(neg, s'') := sign s' in
        match digitpart s'' with
        | Some (ev, _, r) => (if neg then - ev else ev, r)
        | None => (0, s)
        end
      else (0, s)
  | [] => (0, s)
  end.

Definition parse_float (t : list ascii) : result float :=
  let '(neg, s) := sign (strip t) in
  let word := string_of_list_ascii (map lower s) in
  if (String.eqb word "inf" || String.eqb word "infinity")%bool then
    Ok (if neg then neg_infinity else infinity)
  else if String.eqb word "nan" then Ok nan
  else
    match number s with
    | Some (m, e, r) =>
        match exponent r with
        | (e', []) => Ok (decimal_to_float neg m (e + e'))
        | (_, _ :: _) => Raise ValueError
        end
    | None => Raise ValueError
    end.

(** *** [float(v)] for a string [v]

    A string of the command line is its bytes, read as UTF-8; a byte that
    is not part of a well-formed sequence stands for a character of its
    own (a lone surrogate), as the command line is decoded. *)
Definition between (lo hi b : Z) : bool := (lo <=? b) && (b <=? hi).

Definition continuation (b : Z) : bool := between 0x80 0xBF b.

Definition lead3 (b0 b1 : Z) : bool :=
  ((b0 =? 0xE0) && between 0xA0 0xBF b1)
  || ((between 0xE1 0xEC b0 || between 0xEE 0xEF b0) && continuation b1)
  || ((b0 =? 0xED) && between 0x80 0x9F b1).

Definition lead4 (b0 b1 : Z) : bool :=
  ((b0 =? 0xF0) && between 0x90 0xBF b1)
  || (between 0xF1 0xF3 b0 && continuation b1)
  || ((b0 =? 0xF4) && between 0x80 0x8F b1).

Fixpoint utf8_decode (s : list Z) : list Z :=
  match s with
  | [] => []
  | b0 :: r =>
      let escaped := (0xDC00 + b0) :: utf8_decode r in
      if b0 <? 0x80 then b0 :: utf8_decode r
      else
        match r with
        | b1 :: r1 =>
            if between 0xC2 0xDF b0 && continuation b1 then
              ((b0 - 0xC0) * 64 + (b1 - 0x80)) :: utf8_decode r1
            else
              match r1 with
              | b2 :: r2 =>
                  if lead3 b0 b1 && continuation b2 then
                    ((b0 - 0xE0) * 4096 + (b1 - 0x80) * 64 + (b2 - 0x80))
                      :: utf8_decode r2
                  else
                    match r2 with
                    | b3 :: r3 =>
                        if lead4 b0 b1 && continuation b2 && continuation b3
                        then
                          ((b0 - 0xF0) * 262144 + (b1 - 0x80) * 4096
                           + (b2 - 0x80) * 64 + (b3 - 0x80))
                            :: utf8_decode r3
                        else escaped
                    | [] => escaped
                    end
              | [] => escaped
              end
        | [] => escaped
        end
  end.

Definition code_points (v : string) : list Z :=
  utf8_decode (map code (list_ascii_of_string v)).

(** The white space outside ASCII. *)
Definition is_unicode_space (c : Z) : bool :=
  (c =? 0x85) || (c =? 0xA0) || (c =? 0x1680) || between 0x2000 0x200A c
  || (c =? 0x2028) || (c =? 0x2029) || (c =? 0x202F) || (c =? 0x205F)
  || (c =? 0x3000).

(** The digit 0 of every script that has decimal digits (Unicode 14.0.0);
    the digits 1 to 9 of a script follow its 0. *)
Definition decimal_zeros : list Z :=
  [
   0x30; 0x660; 0x6f0; 0x7c0; 0x966; 0x9e6; 0xa66; 0xae6;
   0xb66; 0xbe6; 0xc66; 0xce6; 0xd66; 0xde6; 0xe50; 0xed0;
   0xf20; 0x1040; 0x1090; 0x17e0; 0x1810; 0x1946; 0x19d0; 0x1a80;
   0x1a90; 0x1b50; 0x1bb0; 0x1c40; 0x1c50; 0xa620; 0xa8d0; 0xa900;
   0xa9d0; 0xa9f0; 0xaa50; 0xabf0; 0xff10; 0x104a0; 0x10d30; 0x11066;
   0x110f0; 0x11136; 0x111d0; 0x112f0; 0x11450; 0x114d0; 0x11650; 0x116c0;
   0x11730; 0x118e0; 0x11950; 0x11c50; 0x11d50; 0x11da0; 0x16a60; 0x16ac0;
   0x16b50; 0x1d7ce; 0x1d7d8; 0x1d7e2; 0x1d7ec; 0x1d7f6; 0x1e140; 0x1e2f0;
   0x1e950; 0x1fbf0
  ].

Definition decimal_of (c : Z) : option Z :=
  match List.find (fun z => between z (z + 9) c) decimal_zeros with
  | Some z => Some (c - z)
  | None => None
  end.

Definition chr (c : Z) : ascii := ascii_of_N (Z.to_N c).

(** Before it is parsed, a string that is not all ASCII has its white
    space turned into spaces and its decimal digits into ASCII digits; it
    is cut after the first character that is neither, which becomes a
    question mark. *)
Fixpoint transform (cps : list Z) : list ascii :=
  match cps with
  | [] => []
  | c :: r =>
      if c <? 127 then chr c :: transform r
      else if is_unicode_space c then " "%char :: transform r
      else
        match decimal_of c with
        | Some d => chr (48 + d) :: transform r
        | None => ["?"%char]
        end
  end.

Definition to_ascii (cps : list Z) : list ascii :=
  if forallb (fun c => c <? 128) cps then map chr cps else transform cps.

Definition float_of_string (v : string) : result float :=
  parse_float (to_ascii (code_points v)).


(** *** [float(x)] for the two kinds of value argparse hands over: the
    string given on the command line, or the default, which argparse
    leaves as it is when it is not a string. *)
Inductive arg :=
| Str (v : string)
| Float (x : float).

Definition py_float (a : arg) : result float :=
  match a with
  | Str v => float_of_string v
  | Float x => Ok x
  end.

(** *** [int(x)] of a float: the integer part, towards zero. *)
Definition py_int (x : float) : result Z :=
  match Prim2SF x with
  | S754_zero _ => Ok 0
  | S754_infinity _ => Raise OverflowError
  | S754_nan => Raise ValueError
  | S754_finite s m e =>
      let mag := Z.shiftl (Z.pos m) e in
      Ok (if s then - mag else mag)
  end.

(** *** [x / n] for a float [x] and an int [n]: [n] is converted to the
    nearest float, which fails when it is out of range. *)
Definition float_of_int (n : Z) : result float :=
  match round_binary64 n 0 with
  | S754_infinity _ => Raise OverflowError
  | sf => Ok (SF2Prim sf)
  end.

Definition py_truediv (x : float) (n : Z) : result float :=
  bind (float_of_int n) (fun y =>
  if n =? 0 then Raise ZeroDivisionError else Ok (x / y)%float).

(** *** [x / d] for a float [x] and a number [d], an int or a float: an
    int is converted first, then a divisor equal to zero is refused; the
    quotient of two floats is never out of range. *)
Inductive num :=
| Int (n : Z)
| Flt (y : float).

Definition to_float (d : num) : result float :=
  match d with
  | Int n => float_of_int n
  | Flt y => Ok y
  end.

Definition is_zero (d : num) : bool :=
  match d with
  | Int n => n =? 0
  | Flt y => (y =? 0)%float
  end.

Definition truediv (x : float) (d : num) : result float :=
  bind (to_float d) (fun y =>
  if is_zero d then Raise ZeroDivisionError else Ok (x / y)%float).

(** The exact value of a finite float, as a fraction. *)
Definition value (x : float) : option Q :=
  match Prim2SF x with
  | S754_zero _ => Some (0 # 1)%Q
  | S754_finite s m e =>
      let n := if s then Z.neg m else Z.pos m in
      Some (if 0 <=? e then (n * 2 ^ e) # 1 else n # (Z.to_pos (2 ^ (- e))))%Q
  | _ => None
  end.

(** Truncation of a fraction towards zero. *)
Definition Qtrunc (q : Q) : Z := Z.quot (Qnum q) (Z.pos (Qden q)).

(** The decimal numeral of a natural number, as one types it. *)
Definition decimal (n : Z) : string :=
  NilZero.string_of_uint (N.to_uint (Z.to_N n)).

(** The characters of a run of decimal digits. *)
Definition chars (d : Decimal.uint) : list ascii :=
  list_ascii_of_string (NilEmpty.string_of_uint d).

(** The number a run of decimal digits stands for, read after [acc]. *)
Fixpoint read_uint (d : Decimal.uint) (acc : Z) : Z :=
  match d with
  | Decimal.Nil => acc
  | Decimal.D0 l => read_uint l (10 * acc + 0)
  | Decimal.D1 l => read_uint l (10 * acc + 1)
  | Decimal.D2 l => read_uint l (10 * acc + 2)
  | Decimal.D3 l => read_uint l (10 * acc + 3)
  | Decimal.D4 l => read_uint l (10 * acc + 4)
  | Decimal.D5 l => read_uint l (10 * acc + 5)
  | Decimal.D6 l => read_uint l (10 * acc + 6)
  | Decimal.D7 l => read_uint l (10 * acc + 7)
  | Decimal.D8 l => read_uint l (10 * acc + 8)
  | Decimal.D9 l => read_uint l (10 * acc + 9)
  end.

End Py.

(** ** The construction code: [_CRG.__init__], [BaseSoC.__init__], [main] *)

Module Target.
Import Py.

Local Open Scope string_scope.

Definition kB : Z := 1024.
Definition mB : Z := 1024 * kB.

(** The signals the construction code names: the clock of a clock domain,
    and a pad handed out by [platform.request]. *)
Inductive signal :=
| Clk (cd : string)
| Pad (name : string) (number : option Z).

(** Values of keyword arguments. *)
Inductive kwarg :=
| VInt (n : Z)
| VFloat (x : float)
| VStr (v : string)
| VBool (b : bool)
| VNone.

(** What [_CRG.__init__] builds: the oscillator output for [cd_por], the
    PLL's input and output, and the reset pad. *)
Record crg := Crg {
  hf_clk : string * float;
  pll_clkin : signal * float;
  pll_clkout : string * Z;
  rst_n : signal
}.

Inductive submodule :=
| CRG_ (c : crg)
| LRAM (width size : Z)
| LedChaser (pads : list signal) (sys_clk_freq : Z).

Record core_call := CoreCall {
  core_clk_freq : Z;
  core_ident : string;
  core_ident_version : bool;
  core_kwargs : gmap string kwarg
}.

Record region := Region {
  region_name : string;
  region_origin : Z;
  region_bus : string;
  region_size : Z
}.

(** The framework as the construction code sees it: the calls made to the
    platform and to the SoC core, in order, and the memory map
    [SoCCore.mem_map]. *)
Record world := World {
  commands : list string;
  extensions : list string;
  requests : list (string * option Z);
  period_constraints : list (signal * float);
  core_calls : list core_call;
  submodules : list (string * submodule);
  regions : list region;
  csrs : list string;
  mem_map : gmap string Z
}.

(** Construction code threads the framework's state and may raise. *)
Definition M (A : Type) : Type := world -> result (A * world).

Definition ret {A} (a : A) : M A := fun w => Ok (a, w).

Definition bindM {A B} (m : M A) (k : A -> M B) : M B :=
  fun w =>
    match m w with
    | Ok (a, w') => k a w'
    | Raise e => Raise e
    end.

Definition lift {A} (r : result A) : M A :=
  fun w =>
    match r with
    | Ok a => Ok (a, w)
    | Raise e => Raise e
    end.

Notation "'do' x <- m ; k" := (bindM m (fun x => k))
  (at level 10, x name, m at level 100, k at level 200).

Fixpoint mapM {A B} (f : A -> M B) (l : list A) : M (list B) :=
  match l with
  | [] => ret []
  | a :: l' => do b <- f a; do bs <- mapM f l'; ret (b :: bs)
  end.

(** *** Calls to the framework *)

Definition request (name : string) (number : option Z) : M signal :=
  fun w =>
    Ok (Pad name number,
        World (commands w) (extensions w) (requests w ++ [(name, number)])
              (period_constraints w) (core_calls w) (submodules w)
              (regions w) (csrs w) (mem_map w)).

Definition add_period_constraint (clk : signal) (period : float) : M unit :=
  fun w =>
    Ok (tt,
        World (commands w) (extensions w) (requests w)
              (period_constraints w ++ [(clk, period)]) (core_calls w)
              (submodules w) (regions w) (csrs w) (mem_map w)).

Definition add_platform_command (c : string) : M unit :=
  fun w =>
    Ok (tt,
        World (commands w ++ [c]) (extensions w) (requests w)
              (period_constraints w) (core_calls w) (submodules w)
              (regions w) (csrs w) (mem_map w)).

Definition add_extension (e : string) : M unit :=
  fun w =>
    Ok (tt,
        World (commands w) (extensions w ++ [e]) (requests w)
              (period_constraints w) (core_calls w) (submodules w)
              (regions w) (csrs w) (mem_map w)).

Definition add_submodule (name : string) (m : submodule) : M unit :=
  fun w =>
    Ok (tt,
        World (commands w) (extensions w) (requests w)
              (period_constraints w) (core_calls w)
              (submodules w ++ [(name, m)]) (regions w) (csrs w) (mem_map w)).

Definition register_mem (name : string) (origin : Z) (bus : string) (size : Z)
  : M unit :=
  fun w =>
    Ok (tt,
        World (commands w) (extensions w) (requests w)
              (period_constraints w) (core_calls w) (submodules w)
              (regions w ++ [Region name origin bus size]) (csrs w)
              (mem_map w)).

Definition add_csr (name : string) : M unit :=
  fun w =>
    Ok (tt,
        World (commands w) (extensions w) (requests w)
              (period_constraints w) (core_calls w) (submodules w)
              (regions w) (csrs w ++ [name]) (mem_map w)).

(** [self.mem_map[name]] *)
Definition mem_map_get (name : string) : M Z :=
  fun w =>
    match mem_map w !! name with
    | Some a => Ok (a, w)
    | None => Raise KeyError
    end.

(** A call [f(..., k1=v1, ..., **kwargs)] fails when [kwargs] has one of
    the keywords written out. *)
Definition no_duplicate (keywords : list string) (kwargs : gmap string kwarg)
  : bool :=
  forallb (fun k => negb (bool_decide (is_Some (kwargs !! k)))) keywords.

Section Framework.

(** What [SoCCore.__init__] makes of the memory map. *)
Variable core_mem_map : gmap string Z -> gmap string Z.

(** [SoCCore.__init__(self, platform, clk_freq, ident=..., ident_version=...,
    **kwargs)] *)
Definition SoCCore_init (clk_freq : Z) (ident : string) (ident_version : bool)
    (kwargs : gmap string kwarg) : M unit :=
  fun w =>
    if no_duplicate ["ident"; "ident_version"] kwargs then
      Ok (tt,
          World (commands w) (extensions w) (requests w)
                (period_constraints w)
                (core_calls w ++ [CoreCall clk_freq ident ident_version kwargs])
                (submodules w) (regions w) (csrs w)
                (core_mem_map (mem_map w)))
    else Raise TypeError.

(** [_CRG.__init__(self, platform, sys_clk_freq)] *)
Definition _CRG_init (sys_clk_freq : Z) : M crg :=
  let hf_clk_freq := 25e6%float in
  do rst_n <- request "gsrn" None;
  do period <- lift (py_truediv 1e9 sys_clk_freq);
  do _ <- add_period_constraint (Clk "sys") period;
  ret (Crg ("por", hf_clk_freq) (Clk "por", hf_clk_freq)
           ("sys", sys_clk_freq) rst_n).

(** The body of [class BaseSoC]: [SoCCore.mem_map = {...}] *)
Definition BaseSoC_class (w : world) : world :=
  World (commands w) (extensions w) (requests w) (period_constraints w)
        (core_calls w) (submodules w) (regions w) (csrs w)
        (<["rom" := 0x00000000]>
           (<["sram" := 0x40000000]> (<["csr" := 0xf0000000]> ∅))).

(** [BaseSoC.__init__(self, sys_clk_freq, **kwargs)] *)
Definition BaseSoC_init (sys_clk_freq : Z) (kwargs : gmap string kwarg)
  : M unit :=
  do _ <- add_platform_command "ldc_set_sysconfig {{MASTER_SPI_PORT=SERIAL}}";
  let kwargs := <["integrated_sram_size" := VInt 0]> kwargs in
  do _ <- add_extension "serial_pmods";
  do _ <- SoCCore_init sys_clk_freq
            "LiteX SoC on Crosslink-NX Evaluation Board" true kwargs;
  do c <- _CRG_init sys_clk_freq;
  do _ <- add_submodule "crg" (CRG_ c);
  let size := 128 * kB in
  do _ <- add_submodule "spram" (LRAM 32 size);
  do origin <- mem_map_get "sram";
  do _ <- register_mem "sram" origin "spram" size;
  do pads <- mapM (fun i => request "user_led" (Some i)) (seqZ 0 14);
  do _ <- add_submodule "leds" (LedChaser pads sys_clk_freq);
  add_csr "leds".

(** [--sys-clk-freq] has [default=75e6] and no [type]: the parsed value is
    the string given, or the float [75e6]. *)
Definition sys_clk_freq_arg (flag : option string) : arg :=
  match flag with
  | Some v => Str v
  | None => Float 75e6
  end.

(** [int(float(args.sys_clk_freq))] *)
Definition main_sys_clk_freq (flag : option string) : result Z :=
  bind (py_float (sys_clk_freq_arg flag)) py_int.

(** [main], up to the construction of the SoC; [argdict] is
    [soc_core_argdict(args)]. *)
Definition main (flag : option string) (argdict : gmap string kwarg) : M unit :=
  do f <- lift (main_sys_clk_freq flag);
  BaseSoC_init f argdict.

End Framework.

(** [_CRG.__init__(self, platform, sys_clk_freq)] for a frequency that is
    an int or a float; [_CRG_init] above is its case of an int, the one
    [main] gives. *)
Record crg_any := CrgAny {
  any_hf_clk : string * float;
  any_pll_clkin : signal * float;
  any_pll_clkout : string * num;
  any_rst_n : signal
}.

Definition _CRG_init_any (sys_clk_freq : num) : M crg_any :=
  let hf_clk_freq := 25e6%float in
  do rst_n <- request "gsrn" None;
  do period <- lift (truediv 1e9 sys_clk_freq);
  do _ <- add_period_constraint (Clk "sys") period;
  ret (CrgAny ("por", hf_clk_freq) (Clk "por", hf_clk_freq)
              ("sys", sys_clk_freq) rst_n).

(** The clock/reset generator of an int frequency, among those of any. *)
Definition crg_of_int (c : crg) : crg_any :=
  CrgAny (hf_clk c) (pll_clkin c)
         (fst (pll_clkout c), Int (snd (pll_clkout c))) (rst_n c).

(** The framework once [BaseSoC.__init__] has returned, having found
    [period] for [1e9/sys_clk_freq] and [origin] for [mem_map["sram"]]:
    the calls made before, then its own, and the memory map [m] the core
    left. *)
Definition built (sys_clk_freq : Z) (period : float) (origin : Z)
    (kwargs : gmap string kwarg) (m : gmap string Z) (w : world) : world :=
  World
    (commands w ++ ["ldc_set_sysconfig {{MASTER_SPI_PORT=SERIAL}}"])
    (extensions w ++ ["serial_pmods"])
    (requests w ++
       ("gsrn", None) :: map (fun i => ("user_led", Some i)) (seqZ 0 14))
    (period_constraints w ++ [(Clk "sys", period)])
    (core_calls w ++
       [CoreCall sys_clk_freq "LiteX SoC on Crosslink-NX Evaluation Board"
                 true (<["integrated_sram_size" := VInt 0]> kwargs)])
    (submodules w ++
       [("crg", CRG_ (Crg ("por", 25e6%float) (Clk "por", 25e6%float)
                          ("sys", sys_clk_freq) (Pad "gsrn" None)));
        ("spram", LRAM 32 131072);
        ("leds", LedChaser (map (fun i => Pad "user_led" (Some i))
                                (seqZ 0 14)) sys_clk_freq)])
    (regions w ++ [Region "sram" origin "spram" 131072])
    (csrs w ++ ["leds"])
    m.

(** A core that moves the SRAM to 0x10000000, as a CPU with a memory map
    of its own may. *)
Definition move_sram (m : gmap string Z) : gmap string Z :=
  <["sram" := 0x10000000]> m.

(** A framework in which nothing was called yet, a core that leaves the
    memory map as it finds it, and keyword arguments that ask for 4 kB of
    integrated SRAM. *)
Definition fresh : world := World [] [] [] [] [] [] [] [] ∅.
Definition keep_mem_map (m : gmap string Z) : gmap string Z := m.
Definition sram_4k : gmap string kwarg :=
  <["integrated_sram_size" := VInt 4096]> (<["cpu_type" := VStr "vexriscv"]> ∅).

End Target.


(** ** The rest of [main]: building and loading *)

Module Cli.
Import Py Target.

Local Open Scope string_scope.

(** What [parser.parse_args()] returns, for the arguments [main] adds;
    [serial] is parsed and then not read. *)
Record args := Args {
  build : bool;
  load : bool;
  sys_clk_freq : option string;
  serial : string;
  prog_target : string
}.

(** [os.path.join(a, b)] of [posixpath]: [/] is the separator. *)
Definition starts_with_sep (b : string) : bool :=
  match b with
  | String c _ => Ascii.eqb c "/"
  | EmptyString => false
  end.

Fixpoint ends_with_sep (a : string) : bool :=
  match a with
  | EmptyString => false
  | String c EmptyString => Ascii.eqb c "/"
  | String _ a' => ends_with_sep a'
  end.

Definition path_join (a b : string) : string :=
  if starts_with_sep b then b
  else if String.eqb a "" || ends_with_sep a then a ++ b
  else a ++ "/" ++ b.

(** The calls [main] makes once the SoC is there and the [Builder] is made
    of it. *)
Inductive action :=
| Build (run : bool)
| CreateProgrammer (target : string)
| LoadBitstream (path : string).

Section Builder.

Variable core_mem_map : gmap string Z -> gmap string Z.

(** [builder.gateware_dir] and [soc.build_name], as the framework has
    them. *)
Variables gateware_dir build_name : string.

(** [main()], run after the body of [class BaseSoC]: the SoC, then
    [builder.build(run=args.build)], then, with [--load], the programmer
    and the bitstream. *)
Definition main (a : args) (argdict : gmap string kwarg) (w : world)
  : result (world * list action) :=
  match Target.main core_mem_map (sys_clk_freq a) argdict (BaseSoC_class w) with
  | Ok (_, w') =>
      Ok (w',
          Build (build a) ::
          (if load a then
             [CreateProgrammer (prog_target a);
              LoadBitstream (path_join gateware_dir (build_name ++ ".bit"))]
           else []))
  | Raise e => Raise e
  end.

End Builder.

(** Arguments to try [main] on: [--load --sys-clk-freq 50e6
    --prog-target flash]. *)
Definition load_flash : args := Args false true (Some "50e6") "serial" "flash".

End Cli.

(** * Properties of the clock/reset generator *)

Section CRGFacts.
Import CRG.

Implicit Types (s : state) (i : pins) (p q : synchronizer) (e : event)
  (tr : list event).

(** ** What a step does to each part of the state *)

Lemma io_step s c i : io (step s (c, i)) = i.
Proof. destruct c; reflexivity. Qed.

Lemma por_count_drive s i : por_count (drive i s) = por_count s.
Proof. reflexivity. Qed.

Lemma por_count_step s c i :
  por_count (step s (c, i)) =
  match c with
  | Por => por_count_next (drive i s)
  | _ => por_count s
  end.
Proof. destruct c; reflexivity. Qed.

Lemma por_sync_drive s i :
  por_sync (drive i s) = sync_preset (negb (rst_n i)) (por_sync s).
Proof. reflexivity. Qed.

Lemma por_sync_step s c i :
  por_sync (step s (c, i)) =
  match c with
  | Por => sync_preset (negb (rst_n i))
             (sync_clock (sync_preset (negb (rst_n i)) (por_sync s)))
  | _ => sync_preset (negb (rst_n i)) (por_sync s)
  end.
Proof. destruct c, i as [[] ?]; reflexivity. Qed.

Lemma run_cons s e tr : run s (e :: tr) = run (step s e) tr.
Proof. reflexivity. Qed.

Lemma run_app s tr tr' : run s (tr ++ tr') = run (run s tr) tr'.
Proof. apply fold_left_app. Qed.

Lemma run_snoc s tr e : run s (tr ++ [e]) = step (run s tr) e.
Proof. rewrite run_app. reflexivity. Qed.

Lemma por_cycles_app tr tr' :
  por_cycles (tr ++ tr') = por_cycles tr + por_cycles tr'.
Proof. induction tr as [|e tr IH]; simpl; [reflexivity | rewrite IH; lia]. Qed.

Lemma por_cycles_nonneg tr : 0 <= por_cycles tr.
Proof. induction tr as [|e tr IH]; simpl; [lia | destruct (is_por e); lia]. Qed.

(** ** Settled states *)

Lemma settle_settled s : settled (settle s).
Proof.
  split; intros H.
  - change (por_async_reset (settle s)) with (por_async_reset s) in H.
    cbn. rewrite H. reflexivity.
  - change (sys_async_reset (settle s)) with (sys_async_reset s) in H.
    cbn. rewrite H. reflexivity.
Qed.

Lemma power_up_settled i p q : settled (power_up i p q).
Proof. apply settle_settled. Qed.

Lemma step_settled s e : settled (step s e).
Proof. destruct e as [[] i]; apply settle_settled. Qed.

Lemma run_settled tr s : settled s -> settled (run s tr).
Proof.
  revert s. induction tr as [|e tr IH]; intros s H; [exact H|].
  rewrite run_cons. apply IH, step_settled.
Qed.

Lemma settled_sys_gate s :
  settled s -> locked (io s) = false \/ por_done s = false ->
  cd_sys_rst s = true.
Proof.
  intros [_ H] Hc. unfold cd_sys_rst. rewrite H; [reflexivity|].
  unfold sys_async_reset. destruct Hc as [-> | ->]; [reflexivity|].
  apply orb_true_r.
Qed.

Lemma settled_por_gate s :
  settled s -> rst_n (io s) = false -> cd_por_rst s = true.
Proof.
  intros [H _] Hc. unfold cd_por_rst. rewrite H; [reflexivity|].
  unfold por_async_reset. rewrite Hc. reflexivity.
Qed.

(** ** The counter stays within its 16 bits *)

Lemma por_count_next_cases s :
  in_range s ->
  por_count_next s =
  if cd_por_rst s then por_count_reset
  else if por_count s =? 0 then 0 else por_count s - 1.
Proof.
  unfold in_range, por_count_next, por_done, por_count_reset, trunc16,
    por_count_bits. intros H.
  destruct (cd_por_rst s); [reflexivity|].
  destruct (Z.eqb_spec (por_count s) 0) as [E|E]; simpl; [exact E|].
  apply Z.mod_small. lia.
Qed.

Lemma step_in_range s e : in_range s -> in_range (step s e).
Proof.
  destruct e as [c i]. intros H. unfold in_range. rewrite por_count_step.
  destruct c; try exact H.
  rewrite por_count_next_cases by exact H. rewrite por_count_drive.
  unfold in_range, por_count_reset in *.
  destruct (cd_por_rst _); [lia|].
  destruct (Z.eqb_spec (por_count s) 0); lia.
Qed.

Lemma run_in_range tr s : in_range s -> in_range (run s tr).
Proof.
  revert s. induction tr as [|e tr IH]; intros s H; [exact H|].
  rewrite run_cons. apply IH, step_in_range, H.
Qed.

Lemma power_up_in_range i p q : in_range (power_up i p q).
Proof.
  unfold in_range. change (por_count (power_up i p q)) with por_count_reset.
  unfold por_count_reset. lia.
Qed.

(** A step takes at most one off the counter. *)
Lemma step_lower_bound s e :
  in_range s ->
  por_count s - (if is_por e then 1 else 0) <= por_count (step s e).
Proof.
  destruct e as [c i]. intros H. rewrite por_count_step.
  destruct c; simpl; try lia.
  rewrite por_count_next_cases by exact H. rewrite por_count_drive.
  unfold in_range, por_count_reset in *.
  destruct (cd_por_rst _); [lia|].
  destruct (Z.eqb_spec (por_count s) 0); lia.
Qed.

Lemma run_lower_bound tr s :
  in_range s -> por_count s - por_cycles tr <= por_count (run s tr).
Proof.
  revert s. induction tr as [|e tr IH]; intros s H; simpl por_cycles.
  - simpl. lia.
  - rewrite run_cons.
    pose proof (step_lower_bound s e H).
    pose proof (IH (step s e) (step_in_range s e H)). lia.
Qed.

(** ** Steps of a run *)

Lemma in_run_app tr tr' s :
  in_run s (tr ++ tr') = in_run s tr && in_run (run s tr) tr'.
Proof.
  revert s. induction tr as [|e tr IH]; intros s; [reflexivity|].
  simpl. rewrite IH, andb_assoc. reflexivity.
Qed.

(** Out of reset, a [por] edge takes one off a nonzero counter and leaves a
    zero counter alone; no other step touches the counter. *)
Lemma step_out_of_reset s e :
  in_range s -> in_run s [e] = true ->
  por_count (step s e) =
  if is_por e then (if por_count s =? 0 then 0 else por_count s - 1)
  else por_count s.
Proof.
  destruct e as [c i]. intros Hr H. rewrite por_count_step.
  destruct c; try reflexivity.
  simpl in H. rewrite andb_true_r in H. apply negb_true_iff in H.
  rewrite por_count_next_cases by exact Hr. rewrite H. reflexivity.
Qed.

(** In reset, a [por] edge reloads the counter: the next run starts. *)
Lemma step_in_reset s i :
  cd_por_rst (drive i s) = true -> por_count (step s (Por, i)) = por_count_reset.
Proof.
  intros H. rewrite por_count_step. unfold por_count_next. rewrite H.
  reflexivity.
Qed.

Lemma run_zero tr s :
  in_range s -> in_run s tr = true -> por_count s = 0 -> por_count (run s tr) = 0.
Proof.
  revert s. induction tr as [|e tr IH]; intros s Hr H Hz; [exact Hz|].
  rewrite run_cons.
  change (e :: tr) with ([e] ++ tr) in H. rewrite in_run_app in H.
  apply andb_true_iff in H as [He Htr].
  apply IH; [apply step_in_range, Hr | exact Htr |].
  rewrite step_out_of_reset by assumption. rewrite Hz.
  destruct (is_por e); reflexivity.
Qed.

(** ** The reset of [cd_por] is released two edges after [gsrn] *)

Lemma released_keeps_clear tr s :
  released tr = true -> por_sync s = clear -> por_sync (run s tr) = clear.
Proof.
  revert s. induction tr as [|[c i] tr IH]; intros s H Hs; [exact Hs|].
  simpl in H. apply andb_true_iff in H as [Hi Htr].
  rewrite run_cons. apply IH; [exact Htr|].
  rewrite por_sync_step, Hs, Hi. destruct c; reflexivity.
Qed.

Lemma released_one_edge tr s :
  released tr = true -> rst1 (por_sync s) = false -> 1 <= por_cycles tr ->
  por_sync (run s tr) = clear.
Proof.
  revert s. induction tr as [|[c i] tr IH]; intros s H Hs Hn.
  - simpl in Hn. lia.
  - simpl in H. apply andb_true_iff in H as [Hi Htr].
    rewrite run_cons. destruct c.
    + apply released_keeps_clear; [exact Htr|].
      rewrite por_sync_step, Hi. simpl. unfold sync_clock. rewrite Hs.
      reflexivity.
    + apply IH; [exact Htr | | exact Hn].
      rewrite por_sync_step, Hi. exact Hs.
    + apply IH; [exact Htr | | exact Hn].
      rewrite por_sync_step, Hi. exact Hs.
Qed.

Lemma released_two_edges tr s :
  released tr = true -> 2 <= por_cycles tr -> por_sync (run s tr) = clear.
Proof.
  revert s. induction tr as [|[c i] tr IH]; intros s H Hn.
  - simpl in Hn. lia.
  - simpl in H. apply andb_true_iff in H as [Hi Htr].
    rewrite run_cons. destruct c.
    + apply released_one_edge; [exact Htr | | simpl in Hn; lia].
      rewrite por_sync_step, Hi. reflexivity.
    + apply IH; [exact Htr | exact Hn].
    + apply IH; [exact Htr | exact Hn].
Qed.

(** ** The claims *)

(** C1. In every state the generator reaches from power-up, whatever the
    pins and the two clocks do, the reset of [cd_sys] is asserted when the
    PLL is not locked or the power-on counter is not done.  The transition
    system has no parameter that depends on [sys_clk_freq], and [locked] is
    any input at all, so this holds for every requested frequency. *)
Theorem sys_reset_gate i p q tr :
  let s := run (power_up i p q) tr in
  locked (io s) = false \/ por_done s = false -> cd_sys_rst s = true.
Proof.
  intros s. apply settled_sys_gate, run_settled, power_up_settled.
Qed.

Lemma sys_reset_gate_witness :
  cd_sys_rst (run (power_up up set set) (hold 3 Por up ++ [(Sys, unlocked)]))
  = true.
Proof.
  apply (sys_reset_gate up set set (hold 3 Por up ++ [(Sys, unlocked)])).
  left. reflexivity.
Defined.

(** The same, read the other way: the reset of [cd_sys] is de-asserted only
    in states where the counter is done and the PLL is locked. *)
Lemma sys_reset_release i p q tr :
  let s := run (power_up i p q) tr in
  cd_sys_rst s = false -> por_done s = true /\ locked (io s) = true.
Proof.
  intros s H.
  pose proof (settled_sys_gate s
                (run_settled tr _ (power_up_settled i p q))) as G.
  destruct (por_done s) eqn:D, (locked (io s)) eqn:L; auto;
    rewrite G in H by auto; discriminate.
Qed.

(** The reset of [cd_sys] does get released: 65535 [por] edges and two
    [sys] edges after a power-up with [gsrn] high and the PLL locked. *)
Example sys_reset_released :
  cd_sys_rst (run (power_up up clear clear)
                  (hold 65535 Por up ++ hold 2 Sys up)) = false.
Proof. vm_compute. reflexivity. Qed.

(** C2. From power-up, the reset of [cd_sys] is asserted in every state
    reached with fewer than 65535 [por] clock edges, the counter's reset
    value. *)
Theorem sys_reset_held_for_por_count i p q tr :
  por_cycles tr < por_count_reset ->
  cd_sys_rst (run (power_up i p q) tr) = true.
Proof.
  intros H.
  apply settled_sys_gate; [apply run_settled, power_up_settled|].
  right. unfold por_done. apply Z.eqb_neq.
  pose proof (run_lower_bound tr _ (power_up_in_range i p q)) as L.
  change (por_count (power_up i p q)) with por_count_reset in L. lia.
Qed.

Lemma sys_reset_held_for_por_count_witness :
  por_cycles (hold 65534 Por up ++ hold 5 Sys up) < por_count_reset /\
  cd_sys_rst (run (power_up up clear clear)
                  (hold 65534 Por up ++ hold 5 Sys up)) = true.
Proof.
  split; [vm_compute; reflexivity|].
  apply (sys_reset_held_for_por_count up clear clear
           (hold 65534 Por up ++ hold 5 Sys up)).
  vm_compute. reflexivity.
Defined.

(** C3, as the code has it.  The power-on counter is a 16-bit register
    that holds 65535 at power-up.  A [por] edge that does not find [cd_por]
    in reset takes exactly one off a nonzero counter, and a counter that has
    reached zero stays zero as long as no [por] edge finds [cd_por] in
    reset; a [por] edge that finds [cd_por] in reset reloads 65535; no other
    step changes the counter.  [por_done] is true exactly when the counter
    is zero. *)
Theorem por_counter_counts_down :
  (forall i p q, por_count (power_up i p q) = 65535) /\
  (forall i p q tr, 0 <= por_count (run (power_up i p q) tr) < 2 ^ 16) /\
  (forall i p q tr i',
     let s := run (power_up i p q) tr in
     in_run s [(Por, i')] = true ->
     por_count (step s (Por, i')) =
     if por_count s =? 0 then 0 else por_count s - 1) /\
  (forall s i,
     cd_por_rst (drive i s) = true -> por_count (step s (Por, i)) = 65535) /\
  (forall s c i, c <> Por -> por_count (step s (c, i)) = por_count s) /\
  (forall i p q tr tr',
     let s := run (power_up i p q) tr in
     in_run s tr' = true -> por_count s = 0 -> por_count (run s tr') = 0) /\
  (forall s, por_done s = true <-> por_count s = 0).
Proof.
  repeat split.
  - pose proof (run_in_range tr _ (power_up_in_range i p q)) as H.
    unfold in_range in H. lia.
  - pose proof (run_in_range tr _ (power_up_in_range i p q)) as H.
    unfold in_range, por_count_reset in H. lia.
  - intros i p q tr i' s H.
    apply (step_out_of_reset s (Por, i')); [|exact H].
    apply run_in_range, power_up_in_range.
  - intros s i H. apply step_in_reset, H.
  - intros s c i H. rewrite por_count_step. destruct c; congruence.
  - intros i p q tr tr' s H Hz.
    apply run_zero; [apply run_in_range, power_up_in_range | exact H | exact Hz].
  - unfold por_done. apply Z.eqb_eq.
  - unfold por_done. apply Z.eqb_eq.
Qed.

Lemma por_counter_counts_down_witness :
  por_count (step (run (power_up up clear clear) (hold 7 Por up)) (Por, up))
  = 65527 /\
  por_count (step (run (power_up up clear clear) (hold 7 Por up))
                  (Por, pressed)) = 65535 /\
  por_count (run (run (power_up up clear clear) (hold 65535 Por up))
                 (hold 9 Por unlocked ++ hold 2 Sys up)) = 0.
Proof.
  destruct por_counter_counts_down as (_ & _ & Hdec & Hrst & _ & Hzero & _).
  split; [|split].
  - rewrite (Hdec up clear clear (hold 7 Por up) up); vm_compute; reflexivity.
  - apply Hrst. vm_compute. reflexivity.
  - apply (Hzero up clear clear (hold 65535 Por up)); vm_compute; reflexivity.
Defined.

(** C3, as stated, fails.  While [gsrn] is held low the counter is nonzero
    and a [por] edge does not take one off it; and a counter that has
    reached zero is back at 65535 on the [por] edge after [gsrn] was
    pressed. *)
Lemma por_counter_reloaded_in_reset :
  (let s := power_up pressed clear clear in
   por_count s <> 0 /\
   por_count (step s (Por, pressed)) <> por_count s - 1) /\
  (let s := run (power_up up clear clear) (hold 65535 Por up) in
   por_count s = 0 /\
   por_count (run s [(Quiet, pressed); (Por, up)]) = 65535).
Proof. vm_compute. repeat split; discriminate. Qed.

(** C7, as stated, fails: after [gsrn] was pressed and released, the reset
    of [cd_por] is still asserted while [gsrn] is high, and it stays so
    over the next [por] edge. *)
Lemma por_reset_outlasts_gsrn :
  let s := run (power_up up clear clear) [(Quiet, pressed); (Quiet, up)] in
  let s' := step s (Por, up) in
  cd_por_rst s <> negb (rst_n (io s)) /\
  cd_por_rst s' <> negb (rst_n (io s')).
Proof. vm_compute. split; discriminate. Qed.

End CRGFacts.

(** * Properties of the Python builtins *)

Section PyFacts.
Import Py.

(** [int] of a finite float is its exact value truncated towards zero. *)
Lemma py_int_finite (x : float) (q : Q) :
  value x = Some q -> py_int x = Ok (Qtrunc q).
Proof.
  unfold value, py_int.
  destruct (Prim2SF x) as [s | s | | s m e]; try discriminate.
  - intros [= <-]. reflexivity.
  - destruct (Z.leb_spec 0 e) as [He|He]; intros [= <-]; unfold Qtrunc; cbn [Qnum Qden].
    + rewrite Z.quot_1_r, Z.shiftl_mul_pow2 by exact He.
      destruct s; [|reflexivity].
      rewrite <- Z.mul_opp_l. reflexivity.
    + assert (Hd : 0 < 2 ^ (- e)) by (apply Z.pow_pos_nonneg; lia).
      rewrite Z2Pos.id by exact Hd.
      rewrite Z.shiftl_div_pow2 by lia.
      destruct s.
      * change (Z.neg m) with (- Z.pos m).
        rewrite Z.quot_opp_l by lia.
        rewrite Z.quot_div_nonneg by lia. reflexivity.
      * rewrite Z.quot_div_nonneg by lia. reflexivity.
Qed.


(** ** Integers that convert to a float *)

Lemma digits2_pos_size (m : positive) : digits2_pos m = Pos.size m.
Proof. induction m; simpl; congruence. Qed.

Lemma digits2_pos_iter (m k : positive) :
  digits2_pos (Pos.iter xO m k) = (digits2_pos m + k)%positive.
Proof.
  induction k using Pos.peano_ind.
  - simpl. lia.
  - rewrite Pos.iter_succ. simpl. rewrite IHk. lia.
Qed.

Lemma size_53 (m : positive) : Z.pos m < 2 ^ 53 -> Z.pos (Pos.size m) <= 53.
Proof.
  intros H. pose proof (Pos.size_le m) as L.
  assert (L' : Z.pos (2 ^ Pos.size m) <= Z.pos m~0) by lia.
  rewrite Pos2Z.inj_pow in L'.
  destruct (Z.le_gt_cases (Z.pos (Pos.size m)) 53) as [|G]; [assumption|].
  assert (2 ^ 54 <= 2 ^ Z.pos (Pos.size m)) by (apply Z.pow_le_mono_r; lia).
  lia.
Qed.

(** Nothing is rounded off a mantissa that is already in place. *)
Lemma binary_round_aux_exact (s : bool) (m : positive) (e : Z) :
  fexp prec emax (Z.pos (digits2_pos m) + e) = e -> e <= emax - prec ->
  binary_round_aux prec emax s (Z.pos m) e loc_Exact = S754_finite s m e.
Proof.
  intros H L. unfold binary_round_aux, shr_fexp.
  cbn [Zdigits2 shr_record_of_loc]. rewrite H, Z.sub_diag.
  cbn [shr round_nearest_even shr_m loc_of_shr_record Zdigits2
       shr_record_of_loc].
  rewrite H, Z.sub_diag. cbn [shr shr_m].
  apply Z.leb_le in L. rewrite L. reflexivity.
Qed.

Lemma binary_round_53 (s : bool) (m : positive) :
  Z.pos m < 2 ^ 53 ->
  exists m' e', binary_round prec emax s m 0 = S754_finite s m' e'.
Proof.
  intros H. apply size_53 in H. rewrite <- digits2_pos_size in H.
  unfold binary_round.
  assert (F : fexp prec emax (Z.pos (digits2_pos m) + 0)
              = Z.pos (digits2_pos m) - 53).
  { unfold fexp, emin, prec, emax. lia. }
  rewrite F. unfold shl_align.
  destruct (Z.pos (digits2_pos m) - 53 - 0) eqn:E; try lia.
  - rewrite binary_round_aux_exact;
      [eauto | rewrite F; lia | unfold emax, prec; lia].
  - rewrite binary_round_aux_exact; [eauto | | unfold emax, prec; lia].
    rewrite digits2_pos_iter. unfold fexp, emin, prec, emax. lia.
Qed.

(** [x / n] has a value for every nonzero [n] of less than 54 bits. *)
Lemma py_truediv_defined (x : float) (n : Z) :
  n <> 0 -> Z.abs n < 2 ^ 53 -> exists y, py_truediv x n = Ok y.
Proof.
  intros Hn Hb. unfold py_truediv, float_of_int, round_binary64.
  destruct n as [|m|m]; [congruence| |]; cbn [binary_normalize].
  - destruct (binary_round_53 false m) as (m' & e' & ->); [lia|].
    cbn [bind]. eauto.
  - destruct (binary_round_53 true m) as (m' & e' & ->); [lia|].
    cbn [bind]. eauto.
Qed.

End PyFacts.

(** * Properties of the construction code *)

Section TargetFacts.
Import Py Target.
Local Open Scope string_scope.
Local Open Scope list_scope.

Implicit Types (w : world) (kw : gmap string kwarg) (f : Z) (p : float).

(** ** The clock/reset generator *)

Lemma CRG_init_ok f p w :
  py_truediv 1e9 f = Ok p ->
  _CRG_init f w =
  Ok (Crg ("por", 25e6%float) (Clk "por", 25e6%float) ("sys", f)
          (Pad "gsrn" None),
      World (commands w) (extensions w) (requests w ++ [("gsrn", None)])
            (period_constraints w ++ [(Clk "sys", p)]) (core_calls w)
            (submodules w) (regions w) (csrs w) (mem_map w)).
Proof.
  intros H. unfold _CRG_init, bindM, lift, request. rewrite H. reflexivity.
Qed.

Lemma CRG_init_raises f e w :
  py_truediv 1e9 f = Raise e -> _CRG_init f w = Raise e.
Proof.
  intros H. unfold _CRG_init, bindM, lift, request. rewrite H. reflexivity.
Qed.

(** A frequency of 0 has no period: the constructor raises. *)
Example CRG_init_zero w : _CRG_init 0 w = Raise ZeroDivisionError.
Proof. apply CRG_init_raises. vm_compute. reflexivity. Qed.

(** ** The requests of a list comprehension *)

Lemma mapM_request name (l : list Z) w :
  mapM (fun i => request name (Some i)) l w =
  Ok (map (fun i => Pad name (Some i)) l,
      World (commands w) (extensions w)
            (requests w ++ map (fun i => (name, Some i)) l)
            (period_constraints w) (core_calls w) (submodules w)
            (regions w) (csrs w) (mem_map w)).
Proof.
  revert w. induction l as [|i l IH]; intros w.
  - simpl. unfold ret. rewrite app_nil_r. destruct w; reflexivity.
  - simpl. unfold bindM at 1. unfold request at 1.
    unfold bindM at 1. rewrite IH. unfold ret. cbn.
    rewrite <- app_assoc. reflexivity.
Qed.

(** ** Keywords *)

Lemma no_duplicate_sram kw :
  no_duplicate ["ident"; "ident_version"]
    (<["integrated_sram_size" := VInt 0]> kw) =
  no_duplicate ["ident"; "ident_version"] kw.
Proof.
  unfold no_duplicate. simpl.
  rewrite !lookup_insert_ne by discriminate. reflexivity.
Qed.

(** ** The whole of [BaseSoC.__init__] *)

Lemma bindM_ok {A B} (m : M A) (k : A -> M B) w a w' :
  m w = Ok (a, w') -> bindM m k w = k a w'.
Proof. intros H. unfold bindM. rewrite H. reflexivity. Qed.

(** Run the next call of a sequence, given how to show what it returns. *)
Ltac next_call tac :=
  erewrite bindM_ok by tac;
  cbn [commands extensions requests period_constraints core_calls
       submodules regions csrs mem_map].

Lemma BaseSoC_init_ok core f p kw w :
  core (mem_map (BaseSoC_class w)) !! "sram" = Some 0x40000000 ->
  no_duplicate ["ident"; "ident_version"] kw = true ->
  py_truediv 1e9 f = Ok p ->
  BaseSoC_init core f kw (BaseSoC_class w) =
  Ok (tt,
      World
        (commands w ++ ["ldc_set_sysconfig {{MASTER_SPI_PORT=SERIAL}}"])
        (extensions w ++ ["serial_pmods"])
        (requests w ++
           ("gsrn", None) :: map (fun i => ("user_led", Some i)) (seqZ 0 14))
        (period_constraints w ++ [(Clk "sys", p)])
        (core_calls w ++
           [CoreCall f "LiteX SoC on Crosslink-NX Evaluation Board" true
                     (<["integrated_sram_size" := VInt 0]> kw)])
        (submodules w ++
           [("crg", CRG_ (Crg ("por", 25e6%float) (Clk "por", 25e6%float)
                              ("sys", f) (Pad "gsrn" None)));
            ("spram", LRAM 32 131072);
            ("leds", LedChaser (map (fun i => Pad "user_led" (Some i))
                                    (seqZ 0 14)) f)])
        (regions w ++ [Region "sram" 0x40000000 "spram" 131072])
        (csrs w ++ ["leds"])
        (core (mem_map (BaseSoC_class w)))).
Proof.
  intros Hmap Hdup Hp.
  unfold BaseSoC_class in *. cbn [mem_map] in Hmap.
  unfold BaseSoC_init.
  next_call ltac:(reflexivity).
  next_call ltac:(reflexivity).
  next_call ltac:(unfold SoCCore_init; rewrite no_duplicate_sram, Hdup;
                  reflexivity).
  next_call ltac:(apply CRG_init_ok, Hp).
  next_call ltac:(reflexivity).
  next_call ltac:(reflexivity).
  next_call ltac:(unfold mem_map_get; cbn [mem_map]; rewrite Hmap;
                  reflexivity).
  next_call ltac:(reflexivity).
  next_call ltac:(apply mapM_request).
  next_call ltac:(reflexivity).
  unfold add_csr.
  cbn [commands extensions requests period_constraints core_calls
       submodules regions csrs mem_map].
  rewrite <- !app_assoc. reflexivity.
Qed.

(** ** The claims *)


End TargetFacts.

(** * More on the clock/reset generator *)

Section CRGTiming.
Import CRG.

Implicit Types (s : state) (i : pins) (p q : synchronizer) (e : event)
  (tr : list event).

(** ** The counter along a run *)

Lemma run_count tr s :
  in_range s -> in_run s tr = true ->
  por_count (run s tr) = Z.max 0 (por_count s - por_cycles tr).
Proof.
  revert s. induction tr as [|e tr IH]; intros s Hr H.
  - unfold in_range in Hr. simpl. lia.
  - change (e :: tr) with ([e] ++ tr) in H. rewrite in_run_app in H.
    apply andb_true_iff in H as [He Htr].
    rewrite run_cons, IH by (try apply step_in_range; assumption).
    rewrite step_out_of_reset by assumption.
    unfold in_range in Hr. simpl por_cycles.
    destruct (is_por e), (Z.eqb_spec (por_count s) 0);
      pose proof (por_cycles_nonneg tr); lia.
Qed.

Lemma drive_pressed s i : rst_n i = false -> cd_por_rst (drive i s) = true.
Proof.
  intros H. unfold cd_por_rst. rewrite por_sync_drive, H. reflexivity.
Qed.

(** ** What a step does to the synchronizer of [cd_sys] *)

Lemma sys_sync_step s c i :
  exists b b',
    sys_sync (step s (c, i)) =
    sync_preset b'
      (match c with Sys => sync_clock | _ => fun f => f end
         (sync_preset b (sys_sync s))).
Proof.
  destruct c.
  - eexists _, _. reflexivity.
  - eexists _, _. reflexivity.
  - exists (sys_async_reset (State i (por_count s) (por_sync s) (sys_sync s))),
      false. reflexivity.
Qed.

Lemma sys_cycles_nonneg tr : 0 <= sys_cycles tr.
Proof. induction tr as [|e tr IH]; simpl; [lia | destruct (is_sys e); lia]. Qed.

Lemma sys_cycles_app tr tr' :
  sys_cycles (tr ++ tr') = sys_cycles tr + sys_cycles tr'.
Proof. induction tr as [|e tr IH]; simpl; [reflexivity | rewrite IH; lia]. Qed.

Lemma sys_rst_no_edge tr s :
  cd_sys_rst s = true -> sys_cycles tr < 1 -> cd_sys_rst (run s tr) = true.
Proof.
  revert s. induction tr as [|[c i] tr IH]; intros s H Hn; [exact H|].
  rewrite run_cons. simpl in Hn. unfold is_sys in Hn. simpl in Hn.
  pose proof (sys_cycles_nonneg tr).
  apply IH; [|destruct c; lia].
  unfold cd_sys_rst in *. destruct (sys_sync_step s c i) as (b & b' & ->).
  destruct c, b, b'; simpl; try assumption; try reflexivity; lia.
Qed.

Lemma sys_rst_one_edge tr s :
  sys_sync s = set -> sys_cycles tr < 2 -> cd_sys_rst (run s tr) = true.
Proof.
  revert s. induction tr as [|[c i] tr IH]; intros s H Hn.
  - unfold cd_sys_rst. simpl. rewrite H. reflexivity.
  - rewrite run_cons. simpl in Hn. unfold is_sys in Hn. simpl in Hn.
    pose proof (sys_cycles_nonneg tr).
    destruct (sys_sync_step s c i) as (b & b' & E). rewrite H in E.
    destruct c.
    + apply IH; [|lia]. rewrite E. destruct b, b'; reflexivity.
    + apply sys_rst_no_edge; [|lia].
      unfold cd_sys_rst. rewrite E. destruct b, b'; reflexivity.
    + apply IH; [|lia]. rewrite E. destruct b, b'; reflexivity.
Qed.

Lemma por_rst_no_edge tr s :
  cd_por_rst s = true -> por_cycles tr < 1 -> cd_por_rst (run s tr) = true.
Proof.
  revert s. induction tr as [|[c i] tr IH]; intros s H Hn; [exact H|].
  rewrite run_cons. simpl in Hn. unfold is_por in Hn. simpl in Hn.
  pose proof (por_cycles_nonneg tr).
  apply IH; [|destruct c; lia].
  unfold cd_por_rst in *. rewrite por_sync_step.
  destruct c, (rst_n i); simpl; try assumption; try reflexivity. lia.
Qed.

Lemma por_rst_one_edge tr s :
  por_sync s = set -> por_cycles tr < 2 -> cd_por_rst (run s tr) = true.
Proof.
  revert s. induction tr as [|[c i] tr IH]; intros s H Hn.
  - unfold cd_por_rst. simpl. rewrite H. reflexivity.
  - rewrite run_cons. simpl in Hn. unfold is_por in Hn. simpl in Hn.
    pose proof (por_cycles_nonneg tr).
    pose proof (por_sync_step s c i) as E. rewrite H in E.
    destruct c.
    + apply por_rst_no_edge; [|lia].
      unfold cd_por_rst. rewrite E. destruct (rst_n i); reflexivity.
    + apply IH; [|lia]. rewrite E. destruct (rst_n i); reflexivity.
    + apply IH; [|lia]. rewrite E. destruct (rst_n i); reflexivity.
Qed.

(** ** Counting down to the release, with [gsrn] high *)

Lemma por_edges_left_step s c i :
  in_range s -> rst_n i = true ->
  por_edges_left (step s (c, i)) =
  match c with
  | Por => Z.max 0 (por_edges_left s - 1)
  | _ => por_edges_left s
  end.
Proof.
  intros Hr Hi. unfold por_edges_left, por_reset_edges.
  rewrite por_count_step, por_sync_step, Hi.
  destruct c; try reflexivity.
  rewrite por_count_next_cases by exact Hr.
  unfold cd_por_rst. rewrite por_count_drive, por_sync_drive, Hi.
  unfold in_range, por_count_reset in *.
  destruct (por_sync s) as [[] []]; simpl; try lia.
  destruct (Z.eqb_spec (por_count s) 0); lia.
Qed.

Lemma por_edges_left_run tr s :
  in_range s -> released tr = true ->
  por_edges_left (run s tr) = Z.max 0 (por_edges_left s - por_cycles tr).
Proof.
  revert s. induction tr as [|[c i] tr IH]; intros s Hr H.
  - unfold por_edges_left, por_reset_edges, in_range, por_count_reset in *.
    simpl. destruct (por_sync s) as [[] []]; simpl; lia.
  - simpl in H. apply andb_true_iff in H as [Hi Htr].
    rewrite run_cons, IH by (try apply step_in_range; assumption).
    rewrite por_edges_left_step by assumption.
    pose proof (por_cycles_nonneg tr).
    simpl por_cycles. unfold is_por. simpl. destruct c; lia.
Qed.

Lemma por_edges_left_bound s : in_range s -> por_edges_left s <= 65537.
Proof.
  unfold por_edges_left, por_reset_edges, in_range, por_count_reset.
  destruct (por_sync s) as [[] []]; simpl; lia.
Qed.

Lemma por_edges_left_zero s :
  in_range s -> por_edges_left s = 0 -> por_count s = 0 /\ por_sync s = clear.
Proof.
  unfold por_edges_left, por_reset_edges, in_range, por_count_reset, clear.
  destruct (por_sync s) as [[] []]; simpl; intros; try lia. auto.
Qed.

(** ** Out of reset, with [gsrn] high and the PLL locked *)

Lemma steady_step s c i :
  rst_n i = true -> locked i = true ->
  por_count s = 0 -> por_sync s = clear ->
  step s (c, i) =
  State i 0 clear
        (match c with Sys => sync_clock (sys_sync s) | _ => sys_sync s end).
Proof.
  destruct s as [i0 n ps ss], i as [r l]. simpl. intros -> -> -> ->.
  destruct c; reflexivity.
Qed.

Lemma steady_keeps_clear tr s :
  steady tr = true -> por_count s = 0 -> por_sync s = clear ->
  sys_sync s = clear -> sys_sync (run s tr) = clear.
Proof.
  revert s. induction tr as [|[c i] tr IH]; intros s H Hc Hp Hs; [exact Hs|].
  simpl in H. apply andb_true_iff in H as [Hi Htr].
  apply andb_true_iff in Hi as [Hr Hl].
  rewrite run_cons, (steady_step s c i) by assumption.
  apply IH; try assumption; try reflexivity.
  simpl. rewrite Hs. destruct c; reflexivity.
Qed.

Lemma steady_one_edge tr s :
  steady tr = true -> por_count s = 0 -> por_sync s = clear ->
  rst1 (sys_sync s) = false -> 1 <= sys_cycles tr ->
  sys_sync (run s tr) = clear.
Proof.
  revert s. induction tr as [|[c i] tr IH]; intros s H Hc Hp Hs Hn.
  - simpl in Hn. lia.
  - simpl in H. apply andb_true_iff in H as [Hi Htr].
    apply andb_true_iff in Hi as [Hr Hl].
    rewrite run_cons, (steady_step s c i) by assumption.
    simpl in Hn. unfold is_sys in Hn. simpl in Hn. destruct c.
    + apply IH; try assumption; reflexivity.
    + apply steady_keeps_clear; try assumption; try reflexivity.
      simpl. unfold sync_clock. rewrite Hs. reflexivity.
    + apply IH; try assumption; reflexivity.
Qed.

Lemma steady_two_edges tr s :
  steady tr = true -> por_count s = 0 -> por_sync s = clear ->
  2 <= sys_cycles tr -> sys_sync (run s tr) = clear.
Proof.
  revert s. induction tr as [|[c i] tr IH]; intros s H Hc Hp Hn.
  - simpl in Hn. lia.
  - simpl in H. apply andb_true_iff in H as [Hi Htr].
    apply andb_true_iff in Hi as [Hr Hl].
    rewrite run_cons, (steady_step s c i) by assumption.
    simpl in Hn. unfold is_sys in Hn. simpl in Hn. destruct c.
    + apply IH; try assumption; reflexivity.
    + apply steady_one_edge; try assumption; try reflexivity. lia.
    + apply IH; try assumption; reflexivity.
Qed.

(** ** The synchronizer of [cd_sys] in reachable states *)

Lemma run_sys_sync_ordered tr s :
  sys_sync_ordered s -> sys_sync_ordered (run s tr).
Proof.
  revert s. induction tr as [|[c i] tr IH]; intros s H; [exact H|].
  rewrite run_cons. apply IH. unfold sys_sync_ordered in *.
  destruct (sys_sync_step s c i) as (b & b' & ->).
  destruct c, b, b'; simpl; auto; discriminate.
Qed.

Lemma power_up_sys_sync_ordered i p q : sys_sync_ordered (power_up i p q).
Proof.
  unfold sys_sync_ordered, power_up, settle, sys_async_reset, por_done.
  simpl. rewrite orb_true_r. reflexivity.
Qed.

(** ** The [por] domain on its own *)

Lemma por_view_step s s' e :
  por_view s = por_view s' ->
  por_view (step s e) = por_view (step s' (por_only e)).
Proof.
  destruct e as [c i]. unfold por_view. intros [= Hc Hs].
  rewrite !por_count_step, !por_sync_step. unfold por_only. simpl.
  unfold por_count_next, por_done, cd_por_rst.
  rewrite !por_count_drive, !por_sync_drive. simpl.
  rewrite Hc, Hs. destruct c; reflexivity.
Qed.

Lemma por_view_run tr s s' :
  por_view s = por_view s' ->
  por_view (run s tr) = por_view (run s' (map por_only tr)).
Proof.
  revert s s'. induction tr as [|e tr IH]; intros s s' H; [exact H|].
  simpl map. rewrite !run_cons. apply IH, por_view_step, H.
Qed.

Lemma steady_run_por tr s :
  steady tr = true -> por_count s = 0 -> por_sync s = clear ->
  por_count (run s tr) = 0 /\ por_sync (run s tr) = clear.
Proof.
  revert s. induction tr as [|[c i] tr IH]; intros s H Hc Hp; [auto|].
  simpl in H. apply andb_true_iff in H as [Hi Htr].
  apply andb_true_iff in Hi as [Hr Hl].
  rewrite run_cons, (steady_step s c i) by assumption.
  apply IH; try assumption; reflexivity.
Qed.

(** ** Timing properties *)

(** X1. Within a run the counter is its value at the start of the run less
    the number of [por] edges, and zero once that many edges have passed;
    [por_done] rises exactly then. *)
Theorem por_count_in_run i p q tr0 tr :
  let s := run (power_up i p q) tr0 in
  in_run s tr = true ->
  por_count (run s tr) = Z.max 0 (por_count s - por_cycles tr) /\
  por_done (run s tr) = (por_count s <=? por_cycles tr).
Proof.
  intros s H.
  assert (Hr : in_range s) by apply run_in_range, power_up_in_range.
  assert (E := run_count tr s Hr H). split; [exact E|].
  unfold por_done. rewrite E. unfold in_range in Hr.
  destruct (Z.leb_spec (por_count s) (por_cycles tr));
    [apply Z.eqb_eq | apply Z.eqb_neq]; lia.
Qed.

Lemma por_count_in_run_witness :
  let s := run (power_up up clear clear) (hold 5 Por up) in
  let tr := hold 100 Por unlocked ++ hold 3 Sys up in
  por_count (run s tr) = Z.max 0 (por_count s - por_cycles tr) /\
  por_done (run s tr) = (por_count s <=? por_cycles tr).
Proof.
  apply (por_count_in_run up clear clear (hold 5 Por up)
           (hold 100 Por unlocked ++ hold 3 Sys up)).
  vm_compute. reflexivity.
Defined.

(** X2. A [por] edge that finds [cd_por] in reset, as every [por] edge
    with [gsrn] low does, starts the power-on delay again: the reset of
    [cd_sys] is asserted after it and stays asserted over fewer than 65535
    further [por] edges, whatever the state before. *)
Theorem gsrn_restarts_delay i p q tr0 i' tr :
  let s := run (power_up i p q) tr0 in
  rst_n i' = false \/ cd_por_rst (drive i' s) = true ->
  por_cycles tr < por_count_reset ->
  cd_sys_rst (run (step s (Por, i')) tr) = true.
Proof.
  intros s H Hn.
  assert (Hrst : cd_por_rst (drive i' s) = true).
  { destruct H as [H|H]; [apply drive_pressed, H | exact H]. }
  apply settled_sys_gate; [apply run_settled, step_settled|].
  right. unfold por_done. apply Z.eqb_neq.
  assert (Hr : in_range (step s (Por, i')))
    by apply step_in_range, run_in_range, power_up_in_range.
  pose proof (run_lower_bound tr _ Hr) as L.
  rewrite (step_in_reset s i' Hrst) in L. lia.
Qed.

Lemma gsrn_restarts_delay_witness :
  cd_sys_rst
    (run (step (run (power_up up clear clear)
                    (hold 65535 Por up ++ hold 2 Sys up))
               (Por, pressed))
         (hold 65534 Por up ++ hold 9 Sys up)) = true.
Proof.
  apply (gsrn_restarts_delay up clear clear
           (hold 65535 Por up ++ hold 2 Sys up) pressed
           (hold 65534 Por up ++ hold 9 Sys up)).
  - left. reflexivity.
  - vm_compute. reflexivity.
Defined.

(** X3. A reset is never shorter than two clock edges of its domain: from
    a state in which the asynchronous reset of [cd_sys] (of [cd_por]) is
    on, the reset of the domain is asserted in every state reached with
    fewer than two [sys] ([por]) edges. *)
Theorem reset_pulse_width i p q tr0 tr :
  let s := run (power_up i p q) tr0 in
  (sys_async_reset s = true -> sys_cycles tr < 2 ->
   cd_sys_rst (run s tr) = true) /\
  (por_async_reset s = true -> por_cycles tr < 2 ->
   cd_por_rst (run s tr) = true).
Proof.
  intros s.
  destruct (run_settled tr0 _ (power_up_settled i p q)) as [Hp Hs].
  fold s in Hp, Hs. split; intros H Hn.
  - apply sys_rst_one_edge; [apply Hs, H | exact Hn].
  - apply por_rst_one_edge; [apply Hp, H | exact Hn].
Qed.

Lemma reset_pulse_width_witness :
  cd_sys_rst (run (run (power_up up clear clear) (hold 65535 Por up))
                  [(Quiet, unlocked); (Por, up); (Sys, up); (Quiet, up)])
  = true /\
  cd_por_rst (run (run (power_up up clear clear) [(Quiet, pressed)])
                  [(Sys, up); (Por, up); (Sys, up)]) = true.
Proof.
  split.
  - destruct (reset_pulse_width up clear clear
                (hold 65535 Por up ++ [(Quiet, unlocked)])
                [(Por, up); (Sys, up); (Quiet, up)]) as [H _].
    rewrite run_app in H. apply H; vm_compute; reflexivity.
  - destruct (reset_pulse_width up clear clear [(Quiet, pressed)]
                [(Sys, up); (Por, up); (Sys, up)]) as [_ H].
    apply H; vm_compute; reflexivity.
Defined.

(** X4. The reset of [cd_sys] does get released: after any power-up, once
    [gsrn] has been high over 65537 [por] edges, and then high with the PLL
    locked over two [sys] edges, the counter is done and both domains are
    out of reset. *)
Theorem sys_reset_released_in_time i p q tr1 tr2 :
  released tr1 = true -> 65537 <= por_cycles tr1 ->
  steady tr2 = true -> 2 <= sys_cycles tr2 ->
  let s := run (power_up i p q) (tr1 ++ tr2) in
  por_done s = true /\ cd_por_rst s = false /\ cd_sys_rst s = false.
Proof.
  intros H1 Hn1 H2 Hn2 s. unfold s. rewrite run_app.
  set (a := run (power_up i p q) tr1).
  assert (Hr : in_range (power_up i p q)) by apply power_up_in_range.
  assert (Hz : por_edges_left a = 0).
  { unfold a. rewrite por_edges_left_run by assumption.
    pose proof (por_edges_left_bound _ Hr). lia. }
  apply por_edges_left_zero in Hz as [Hc Hp];
    [|apply run_in_range, Hr].
  destruct (steady_run_por tr2 a H2 Hc Hp) as [Hc' Hp'].
  unfold por_done, cd_por_rst, cd_sys_rst.
  rewrite Hc', Hp', (steady_two_edges tr2 a) by assumption.
  auto.
Qed.

Lemma sys_reset_released_in_time_witness :
  let s := run (power_up pressed set set)
               ((hold 65537 Por unlocked ++ [(Sys, up)])
                ++ (hold 1 Sys up ++ (Por, up) :: hold 1 Sys up)) in
  por_done s = true /\ cd_por_rst s = false /\ cd_sys_rst s = false.
Proof.
  apply (sys_reset_released_in_time pressed set set
           (hold 65537 Por unlocked ++ [(Sys, up)])
           (hold 1 Sys up ++ (Por, up) :: hold 1 Sys up));
    vm_compute; first [reflexivity | discriminate].
Defined.

(** X5. Once released, the reset of [cd_sys] stays released for as long as
    [gsrn] stays high and the PLL stays locked, provided the synchronizer
    of [cd_por] holds no reset at the time. *)
Theorem sys_reset_stays_released i p q tr0 tr :
  let s := run (power_up i p q) tr0 in
  cd_sys_rst s = false -> por_sync s = clear -> steady tr = true ->
  cd_sys_rst (run s tr) = false.
Proof.
  intros s Hs Hp H.
  assert (Hset : settled s) by apply run_settled, power_up_settled.
  assert (Hord : sys_sync_ordered s)
    by apply run_sys_sync_ordered, power_up_sys_sync_ordered.
  assert (Hc : por_count s = 0).
  { destruct (por_done s) eqn:D; [apply Z.eqb_eq, D|].
    rewrite (settled_sys_gate s Hset) in Hs by auto. discriminate. }
  assert (Hclear : sys_sync s = clear).
  { unfold sys_sync_ordered, cd_sys_rst in *.
    destruct (sys_sync s) as [[] []]; simpl in *;
      try discriminate; try reflexivity.
    specialize (Hord eq_refl). discriminate. }
  unfold cd_sys_rst. rewrite steady_keeps_clear by assumption. reflexivity.
Qed.

Lemma sys_reset_stays_released_witness :
  cd_sys_rst (run (run (power_up up set set)
                       (hold 65537 Por up ++ hold 2 Sys up))
                  (hold 4 Por up ++ (Quiet, up) :: hold 4 Sys up)) = false.
Proof.
  apply (sys_reset_stays_released up set set
           (hold 65537 Por up ++ hold 2 Sys up)
           (hold 4 Por up ++ (Quiet, up) :: hold 4 Sys up));
    vm_compute; reflexivity.
Defined.

(** X6. The [por] domain does not depend on the [sys] clock or on the PLL:
    its counter and its reset synchronizer are the same after a trace and
    after that trace with the [sys] edges taken out and the PLL locked
    throughout. *)
Theorem por_domain_on_its_own s tr :
  por_view (run s tr) = por_view (run s (map por_only tr)).
Proof. apply por_view_run. reflexivity. Qed.

(** ** Re-arming and release, revisited *)

(** C4, as the code has it.  The counter never wraps by underflow, and it
    re-arms only by reset: from any state reached from power-up, a step
    that makes the counter larger, and so any step that takes it off zero,
    is a [por] edge that finds [cd_por] in reset, and it loads 65535.  Over
    steps none of whose [por] edges finds [cd_por] in reset, the counter
    never gets larger and, once zero, stays zero. *)
Theorem por_counter_rearms_only_in_reset i p q tr e tr' :
  let a := run (power_up i p q) tr in
  (por_count a < por_count (step a e) ->
   is_por e = true /\ cd_por_rst (drive (snd e) a) = true /\
   por_count (step a e) = 65535) /\
  (in_run a tr' = true ->
   por_count (run a tr') <= por_count a /\
   (por_count a = 0 -> por_count (run a tr') = 0)).
Proof.
  intros a.
  assert (Hr : in_range a) by apply run_in_range, power_up_in_range.
  split.
  - destruct e as [c i']. rewrite por_count_step. destruct c; try lia.
    rewrite por_count_next_cases, por_count_drive by exact Hr.
    unfold in_range in Hr. simpl.
    destruct (cd_por_rst (drive i' a)).
    + intros _. auto.
    + destruct (Z.eqb_spec (por_count a) 0); lia.
  - intros H. rewrite (run_count tr' a Hr H).
    pose proof (por_cycles_nonneg tr'). unfold in_range in Hr. lia.
Qed.

Lemma por_counter_rearms_only_in_reset_witness :
  let a := run (power_up up clear clear) (hold 65535 Por up) in
  (is_por (Por, pressed) = true /\
   cd_por_rst (drive pressed a) = true /\
   por_count (step a (Por, pressed)) = 65535) /\
  por_count (run a (hold 3 Por up ++ hold 2 Sys unlocked)) <= por_count a /\
  (por_count a = 0 ->
   por_count (run a (hold 3 Por up ++ hold 2 Sys unlocked)) = 0).
Proof.
  destruct (por_counter_rearms_only_in_reset up clear clear
              (hold 65535 Por up) (Por, pressed)
              (hold 3 Por up ++ hold 2 Sys unlocked)) as [Hup Hrun].
  split.
  - apply Hup. vm_compute. reflexivity.
  - apply Hrun. vm_compute. reflexivity.
Defined.

(** C4, as stated, fails: the counter has reached zero after 65535 [por]
    edges, and the [por] edge with [gsrn] low takes it back to 65535. *)
Lemma por_counter_rearmed_by_gsrn :
  let a := run (power_up up clear clear) (hold 65535 Por up) in
  por_count a = 0 /\ por_count (step a (Por, pressed)) = 65535.
Proof. vm_compute. split; reflexivity. Qed.

(** C7, as the code has it.  The asynchronous reset fed to the synchronizer
    of [cd_por] is the inverse of [gsrn] in every state, and the reset of
    [cd_por] is asserted in every state in which [gsrn] is low.  It is
    released only by the clock: from a state with [gsrn] low it is still
    asserted in every state reached with fewer than two [por] edges,
    whatever [gsrn] does, and it is off once two [por] edges have passed
    with [gsrn] high. *)
Theorem por_reset_follows_gsrn i p q tr :
  let s := run (power_up i p q) tr in
  por_async_reset s = negb (rst_n (io s)) /\
  (rst_n (io s) = false -> cd_por_rst s = true) /\
  (rst_n (io s) = false ->
   forall tr', por_cycles tr' < 2 -> cd_por_rst (run s tr') = true) /\
  (forall tr', released tr' = true -> 2 <= por_cycles tr' ->
               cd_por_rst (run s tr') = false).
Proof.
  intros s.
  assert (Hset : settled s) by apply run_settled, power_up_settled.
  split; [reflexivity|]. split; [|split].
  - apply settled_por_gate, Hset.
  - intros H tr' Hn. apply por_rst_one_edge; [|exact Hn].
    destruct Hset as [Hp _]. apply Hp.
    unfold por_async_reset. rewrite H. reflexivity.
  - intros tr' H Hn. unfold cd_por_rst.
    rewrite released_two_edges by assumption. reflexivity.
Qed.

Lemma por_reset_follows_gsrn_witness :
  let s := run (power_up up clear clear) [(Quiet, pressed)] in
  cd_por_rst s = true /\
  cd_por_rst (run s [(Quiet, up); (Sys, up); (Por, up); (Sys, up)]) = true /\
  cd_por_rst (run s [(Sys, up); (Por, up); (Sys, up); (Por, unlocked)])
  = false.
Proof.
  destruct (por_reset_follows_gsrn up clear clear [(Quiet, pressed)])
    as (_ & Hlow & Hheld & Hrel).
  split; [|split].
  - apply Hlow. reflexivity.
  - apply Hheld; vm_compute; reflexivity.
  - apply Hrel; vm_compute; [reflexivity | discriminate].
Defined.

End CRGTiming.

(** * More on the construction code *)

Section TargetOutcome.
Import Py Target.
Local Open Scope string_scope.
Local Open Scope list_scope.

Implicit Types (w : world) (kw : gmap string kwarg) (f : Z) (p : float).

Lemma bindM_raise {A B} (m : M A) (k : A -> M B) w e :
  m w = Raise e -> bindM m k w = Raise e.
Proof. intros H. unfold bindM. rewrite H. reflexivity. Qed.

(** Go past a call that returns. *)
Ltac after_call tac :=
  erewrite bindM_ok by tac;
  cbn [commands extensions requests period_constraints core_calls
       submodules regions csrs mem_map].

(** What [BaseSoC.__init__] comes to, case by case, with the framework's
    calls taken to return. *)
Lemma BaseSoC_init_cases core f kw w :
  BaseSoC_init core f kw (BaseSoC_class w) =
  if no_duplicate ["ident"; "ident_version"] kw then
    match py_truediv 1e9 f with
    | Ok p =>
        match core (mem_map (BaseSoC_class w)) !! "sram" with
        | Some origin =>
            Ok (tt, built f p origin kw (core (mem_map (BaseSoC_class w))) w)
        | None => Raise KeyError
        end
    | Raise e => Raise e
    end
  else Raise TypeError.
Proof.
  unfold BaseSoC_class. cbn [mem_map]. unfold BaseSoC_init.
  after_call ltac:(reflexivity).
  after_call ltac:(reflexivity).
  destruct (no_duplicate _ kw) eqn:Hdup.
  2:{ apply bindM_raise. unfold SoCCore_init.
      rewrite no_duplicate_sram, Hdup. reflexivity. }
  after_call ltac:(unfold SoCCore_init; rewrite no_duplicate_sram, Hdup;
                  reflexivity).
  destruct (py_truediv 1e9 f) as [p|e] eqn:Hp.
  2:{ apply bindM_raise, CRG_init_raises, Hp. }
  after_call ltac:(apply CRG_init_ok, Hp).
  after_call ltac:(reflexivity).
  after_call ltac:(reflexivity).
  destruct (core _ !! "sram") as [origin|] eqn:Hmap.
  2:{ apply bindM_raise. unfold mem_map_get. cbn [mem_map].
      rewrite Hmap. reflexivity. }
  after_call ltac:(unfold mem_map_get; cbn [mem_map]; rewrite Hmap;
                  reflexivity).
  after_call ltac:(reflexivity).
  after_call ltac:(apply mapM_request).
  after_call ltac:(reflexivity).
  unfold add_csr, built.
  cbn [commands extensions requests period_constraints core_calls
       submodules regions csrs mem_map].
  rewrite <- !app_assoc. reflexivity.
Qed.

(** X8. The address of the ["sram"] region is read from the memory map
    as [SoCCore.__init__] leaves it: when the core has put another address
    there than the class body did, the LRAM is registered at the core's. *)
Theorem sram_origin_from_mem_map core f p kw w origin :
  core (mem_map (BaseSoC_class w)) !! "sram" = Some origin ->
  no_duplicate ["ident"; "ident_version"] kw = true ->
  py_truediv 1e9 f = Ok p ->
  exists w',
    BaseSoC_init core f kw (BaseSoC_class w) = Ok (tt, w') /\
    regions w' = regions w ++ [Region "sram" origin "spram" 131072] /\
    mem_map w' = core (mem_map (BaseSoC_class w)).
Proof.
  intros Hmap Hdup Hp. eexists.
  rewrite BaseSoC_init_cases, Hdup, Hp, Hmap.
  split; [reflexivity|]. split; reflexivity.
Qed.

Lemma sram_origin_from_mem_map_witness :
  exists w',
    BaseSoC_init move_sram 75000000 sram_4k (BaseSoC_class fresh)
    = Ok (tt, w') /\
    regions w' = regions fresh ++ [Region "sram" 0x10000000 "spram" 131072] /\
    mem_map w' = move_sram (mem_map (BaseSoC_class fresh)).
Proof.
  apply (sram_origin_from_mem_map move_sram 75000000 (1e9 / 75e6)%float
           sram_4k fresh 0x10000000); vm_compute; reflexivity.
Defined.

(** X9. When [main] has constructed the SoC, one frequency went
    everywhere: the [int(float(...))] of the command line is the clock
    frequency given to the SoC core, the output frequency of the PLL, the
    frequency given to the LED chaser, and the one whose period is the
    constraint on the [sys] clock. *)
Theorem main_one_frequency core flag kw w w' :
  main core flag kw (BaseSoC_class w) = Ok (tt, w') ->
  exists f p,
    main_sys_clk_freq flag = Ok f /\
    py_truediv 1e9 f = Ok p /\
    (exists c, core_calls w' = core_calls w ++ [c] /\ core_clk_freq c = f) /\
    period_constraints w' = period_constraints w ++ [(Clk "sys", p)] /\
    (exists g pads,
       submodules w' =
         submodules w ++
         [("crg", CRG_ g); ("spram", LRAM 32 131072);
          ("leds", LedChaser pads f)] /\
       pll_clkout g = ("sys", f)).
Proof.
  unfold main, bindM, lift.
  destruct (main_sys_clk_freq flag) as [f|e] eqn:Hf; [|discriminate].
  rewrite BaseSoC_init_cases.
  destruct (no_duplicate _ kw); [|discriminate].
  destruct (py_truediv 1e9 f) as [p|e] eqn:Hp; [|discriminate].
  destruct (core _ !! "sram") as [origin|]; [|discriminate].
  intros [= <-]. exists f, p. unfold built.
  cbn [core_calls period_constraints submodules].
  split; [reflexivity|]. split; [exact Hp|].
  split; [eexists; split; reflexivity|].
  split; [reflexivity|].
  eexists _, _. split; reflexivity.
Qed.

Lemma main_one_frequency_witness :
  let w' := built 50000000 20 0x40000000 sram_4k
                  (mem_map (BaseSoC_class fresh)) fresh in
  exists f p,
    main_sys_clk_freq (Some " 5e7 ") = Ok f /\
    py_truediv 1e9 f = Ok p /\
    (exists c, core_calls w' = core_calls fresh ++ [c] /\
               core_clk_freq c = f) /\
    period_constraints w' = period_constraints fresh ++ [(Clk "sys", p)] /\
    (exists g pads,
       submodules w' =
         submodules fresh ++
         [("crg", CRG_ g); ("spram", LRAM 32 131072);
          ("leds", LedChaser pads f)] /\
       pll_clkout g = ("sys", f)).
Proof.
  apply (main_one_frequency keep_mem_map (Some " 5e7 ") sram_4k fresh).
  vm_compute. reflexivity.
Defined.

End TargetOutcome.

(** * More on the frequency given on the command line *)

Section FrequencyFacts.
Import Py Target.

(** ** Truncation stays within one of the number *)

Lemma Qtrunc_bounds (q : Q) :
  (inject_Z (Z.abs (Qtrunc q)) <= Qabs q)%Q /\
  (Qabs q < inject_Z (Z.abs (Qtrunc q) + 1))%Q /\
  0 <= Qtrunc q * Qnum q.
Proof.
  destruct q as [a d]. unfold Qtrunc, Qabs, Qle, Qlt, inject_Z.
  cbn [Qnum Qden].
  assert (Hd : 0 < Z.pos d) by lia.
  rewrite Z.quot_div by lia.
  rewrite (Z.sgn_pos (Z.pos d)) by lia.
  rewrite (Z.abs_eq (Z.pos d)) by lia.
  set (t := Z.abs a / Z.pos d).
  assert (Ht : 0 <= t) by (apply Z.div_pos; lia).
  assert (L := Z.mul_div_le (Z.abs a) (Z.pos d) Hd).
  assert (U := Z.mul_succ_div_gt (Z.abs a) (Z.pos d) Hd).
  fold t in L, U.
  assert (E : Z.abs (Z.sgn a * 1 * t) = (if a =? 0 then 0 else t)).
  { destruct (Z.eqb_spec a 0) as [->|Ha]; [reflexivity|].
    destruct a; try congruence; cbn [Z.sgn]; lia. }
  rewrite E. destruct (Z.eqb_spec a 0) as [->|Ha].
  - subst t. simpl. lia.
  - split; [|split]; lia.
Qed.

(** X10. When [float] makes a finite number of the string given, the
    frequency used differs from that float by less than 1, is never larger
    in magnitude, and never has the opposite sign.  (The float is the one
    nearest to the number written, which it need not equal.) *)
Theorem sys_clk_freq_within_one (v : string) (x : float) (q : Q) :
  float_of_string v = Ok x -> value x = Some q ->
  exists n,
    main_sys_clk_freq (Some v) = Ok n /\
    (inject_Z (Z.abs n) <= Qabs q)%Q /\
    (Qabs q < inject_Z (Z.abs n + 1))%Q /\
    0 <= n * Qnum q.
Proof.
  intros Hx Hq. exists (Qtrunc q). split; [|apply Qtrunc_bounds].
  unfold main_sys_clk_freq. cbn [sys_clk_freq_arg py_float].
  rewrite Hx. cbn [bind]. apply py_int_finite, Hq.
Qed.

Lemma sys_clk_freq_within_one_witness :
  exists n,
    main_sys_clk_freq (Some "-74999999.75") = Ok n /\
    (inject_Z (Z.abs n) <= Qabs (-5033164783222784 # 67108864))%Q /\
    (Qabs (-5033164783222784 # 67108864) < inject_Z (Z.abs n + 1))%Q /\
    0 <= n * Qnum (-5033164783222784 # 67108864).
Proof.
  apply (sys_clk_freq_within_one "-74999999.75" (-74999999.75)%float
           (-5033164783222784 # 67108864)%Q); vm_compute; reflexivity.
Defined.

(** ** Reading back a decimal numeral *)

Lemma digits_tail_chars (d : Decimal.uint) (acc k : Z) :
  exists k', digits_tail acc k (chars d) = (read_uint d acc, k', []).
Proof.
  revert acc k. induction d; intros acc k;
    unfold chars; cbn [NilEmpty.string_of_uint list_ascii_of_string digits_tail read_uint].
  - eexists. reflexivity.
  - change (digit_of "0") with (Some 0). apply IHd.
  - change (digit_of "1") with (Some 1). apply IHd.
  - change (digit_of "2") with (Some 2). apply IHd.
  - change (digit_of "3") with (Some 3). apply IHd.
  - change (digit_of "4") with (Some 4). apply IHd.
  - change (digit_of "5") with (Some 5). apply IHd.
  - change (digit_of "6") with (Some 6). apply IHd.
  - change (digit_of "7") with (Some 7). apply IHd.
  - change (digit_of "8") with (Some 8). apply IHd.
  - change (digit_of "9") with (Some 9). apply IHd.
Qed.

Lemma read_uint_acc (d : Decimal.uint) (acc : positive) :
  Z.pos (Pos.of_uint_acc d acc) = read_uint d (Z.pos acc).
Proof.
  revert acc. induction d; intros acc; cbn [Pos.of_uint_acc read_uint];
    try reflexivity; rewrite IHd; f_equal; lia.
Qed.

Lemma read_uint_of_uint (d : Decimal.uint) :
  Z.of_N (Pos.of_uint d) = read_uint d 0.
Proof.
  induction d; cbn [Pos.of_uint read_uint]; try reflexivity;
    try exact IHd; cbn [Z.of_N]; rewrite read_uint_acc; reflexivity.
Qed.

Lemma read_uint_to_uint (n : Z) :
  0 <= n -> read_uint (N.to_uint (Z.to_N n)) 0 = n.
Proof.
  intros H. rewrite <- read_uint_of_uint.
  change (Pos.of_uint ?d) with (N.of_uint d).
  rewrite DecimalN.Unsigned.of_to. lia.
Qed.

Lemma chars_not_space (d : Decimal.uint) :
  Forall (fun c => is_space c = false) (chars d).
Proof.
  induction d; unfold chars;
    cbn [NilEmpty.string_of_uint list_ascii_of_string];
    constructor; solve [reflexivity | exact IHd].
Qed.

Lemma lstrip_not_space (s : list ascii) :
  Forall (fun c => is_space c = false) s -> lstrip s = s.
Proof. intros [|c s' Hc _]; [reflexivity|]. simpl. rewrite Hc. reflexivity. Qed.

Lemma strip_chars (d : Decimal.uint) : strip (chars d) = chars d.
Proof.
  unfold strip. rewrite (lstrip_not_space (chars d)) by apply chars_not_space.
  rewrite lstrip_not_space by apply Forall_rev, chars_not_space.
  apply rev_involutive.
Qed.

Lemma chr_code (c : ascii) : chr (code c) = c.
Proof. unfold chr, code. rewrite N2Z.id. apply ascii_N_embedding. Qed.

(** A string of ASCII characters is parsed as it is. *)
Lemma to_ascii_ascii (s : list ascii) :
  Forall (fun c => code c < 128) s ->
  to_ascii (utf8_decode (map code s)) = s.
Proof.
  intros H.
  assert (D : utf8_decode (map code s) = map code s).
  { induction H as [|c s Hc _ IH]; [reflexivity|].
    apply Z.ltb_lt in Hc. change (0x80) with 128.
    cbn [map]. cbn [utf8_decode]. rewrite Hc, IH. reflexivity. }
  rewrite D. unfold to_ascii.
  assert (A : forallb (fun c => c <? 128) (map code s) = true).
  { clear D. induction H as [|c s Hc _ IH]; [reflexivity|].
    cbn [map forallb]. apply Z.ltb_lt in Hc. rewrite Hc, IH. reflexivity. }
  rewrite A. clear. induction s as [|c s IH]; [reflexivity|].
  cbn [map]. rewrite chr_code, IH. reflexivity.
Qed.

Lemma chars_ascii (d : Decimal.uint) :
  Forall (fun c => code c < 128) (chars d).
Proof.
  induction d; unfold chars;
    cbn [NilEmpty.string_of_uint list_ascii_of_string];
    constructor; solve [reflexivity | exact IHd].
Qed.

Lemma number_digits (c : ascii) (v : Z) (d : Decimal.uint) :
  digit_of c = Some v ->
  number (c :: chars d) = Some (read_uint d v, 0, []).
Proof.
  intros H. unfold number, digitpart. rewrite H.
  destruct (digits_tail_chars d v 1) as [k' ->]. reflexivity.
Qed.

Lemma float_of_string_chars (d : Decimal.uint) :
  d <> Decimal.Nil ->
  float_of_string (NilEmpty.string_of_uint d)
  = Ok (decimal_to_float false (read_uint d 0) 0).
Proof.
  intros Hd. unfold float_of_string, code_points. fold (chars d).
  rewrite to_ascii_ascii by apply chars_ascii.
  unfold parse_float. rewrite strip_chars.
  destruct d; [congruence|..]; unfold chars;
    cbn [NilEmpty.string_of_uint list_ascii_of_string]; fold (chars d).
  all: match goal with
       | |- context [sign (?c :: ?t)] =>
           change (sign (c :: t)) with (false, c :: t)
       end.
  all: cbv beta iota.
  all: repeat match goal with
         | |- context [String.eqb ?a ?b] => change (String.eqb a b) with false
         end.
  all: cbn [orb].
  all: erewrite number_digits by reflexivity.
  all: reflexivity.
Qed.

(** ** Integers of less than 54 bits are floats *)

Lemma iter_xO_pow (m k : positive) :
  Z.pos (Pos.iter xO m k) = Z.pos m * 2 ^ Z.pos k.
Proof.
  induction k using Pos.peano_ind.
  - simpl. lia.
  - rewrite Pos.iter_succ, Pos2Z.inj_succ, Z.pow_succ_r by lia.
    rewrite Pos2Z.inj_xO, IHk. lia.
Qed.

Lemma binary_round_53_exact (m : positive) :
  Z.pos m < 2 ^ 53 ->
  exists m' e',
    binary_round prec emax false m 0 = S754_finite false m' e' /\
    SpecFloat.valid_binary prec emax (S754_finite false m' e') = true /\
    Z.shiftl (Z.pos m') e' = Z.pos m.
Proof.
  intros H. apply size_53 in H. rewrite <- digits2_pos_size in H.
  unfold binary_round.
  assert (F : fexp prec emax (Z.pos (digits2_pos m) + 0)
              = Z.pos (digits2_pos m) - 53).
  { unfold fexp, emin, prec, emax. lia. }
  rewrite F. unfold shl_align.
  destruct (Z.pos (digits2_pos m) - 53 - 0) eqn:E; try lia.
  - assert (F' : fexp prec emax (Z.pos (digits2_pos m) + 0) = 0) by lia.
    exists m, 0. split; [|split].
    + apply binary_round_aux_exact; [exact F' | unfold emax, prec; lia].
    + cbn [SpecFloat.valid_binary]. unfold bounded, canonical_mantissa.
      rewrite F'. reflexivity.
    + reflexivity.
  - assert (F' : fexp prec emax
                   (Z.pos (digits2_pos (Pos.iter xO m p))
                    + (Z.pos (digits2_pos m) - 53))
                 = Z.pos (digits2_pos m) - 53).
    { rewrite digits2_pos_iter. unfold fexp, emin, prec, emax. lia. }
    exists (Pos.iter xO m p), (Z.pos (digits2_pos m) - 53).
    split; [|split].
    + apply binary_round_aux_exact; [exact F' | unfold emax, prec; lia].
    + cbn [SpecFloat.valid_binary]. unfold bounded, canonical_mantissa.
      rewrite F', Z.eqb_refl. apply Z.leb_le. unfold emax, prec. lia.
    + replace (Z.pos (digits2_pos m) - 53) with (- Z.pos p) by lia.
      rewrite Z.shiftl_div_pow2 by lia. rewrite Z.opp_involutive.
      rewrite iter_xO_pow. apply Z.div_mul. lia.
Qed.

Lemma py_int_decimal (n : Z) :
  0 <= n < 2 ^ 53 -> py_int (decimal_to_float false n 0) = Ok n.
Proof.
  intros [H0 H]. unfold decimal_to_float.
  destruct (Z.eqb_spec n 0) as [->|Hn]; [vm_compute; reflexivity|].
  cbn [Z.leb Z.compare]. unfold round_binary64.
  replace (n * 10 ^ 0) with n by lia.
  destruct n as [|m|m]; try lia. cbn [binary_normalize].
  destruct (binary_round_53_exact m H) as (m' & e' & -> & Hv & Hs).
  unfold py_int. rewrite Prim2SF_SF2Prim by exact Hv.
  rewrite Hs. reflexivity.
Qed.

Example decimal_example : decimal 75000000 = "75000000"%string.
Proof. reflexivity. Qed.

(** X11. A frequency typed as a plain decimal integer below 2^53 is used
    as it is: [main] constructs the SoC with that very number. *)
Theorem sys_clk_freq_decimal (n : Z) :
  0 <= n < 2 ^ 53 -> main_sys_clk_freq (Some (decimal n)) = Ok n.
Proof.
  intros H. unfold main_sys_clk_freq. cbn [sys_clk_freq_arg py_float].
  unfold decimal.
  assert (Hd : N.to_uint (Z.to_N n) <> Decimal.Nil).
  { destruct (Z.to_N n); [discriminate|]. apply Unsigned.to_uint_nonnil. }
  replace (NilZero.string_of_uint (N.to_uint (Z.to_N n)))
    with (NilEmpty.string_of_uint (N.to_uint (Z.to_N n)))
    by (destruct (N.to_uint (Z.to_N n)); [congruence | reflexivity..]).
  rewrite float_of_string_chars by exact Hd. cbn [bind].
  rewrite read_uint_to_uint by lia. apply py_int_decimal, H.
Qed.

Lemma sys_clk_freq_decimal_witness :
  main_sys_clk_freq (Some (decimal 75000000)) = Ok 75000000.
Proof. apply (sys_clk_freq_decimal 75000000). lia. Defined.

End FrequencyFacts.

(** * More on [main] *)

Section CliFacts.
Import Py Target Cli.
Local Open Scope string_scope.

Lemma append_assoc (a b c : string) : (a ++ b) ++ c = a ++ b ++ c.
Proof.
  induction a as [|x a IH]; [reflexivity|].
  change (String x ((a ++ b) ++ c) = String x (a ++ b ++ c)).
  rewrite IH. reflexivity.
Qed.

Lemma path_join_suffix (a b : string) : exists pre, path_join a b = pre ++ b.
Proof.
  unfold path_join. destruct (starts_with_sep b).
  - exists "". reflexivity.
  - destruct (_ || _).
    + exists a. reflexivity.
    + exists (a ++ "/"). rewrite append_assoc. reflexivity.
Qed.

Lemma path_join_prefix (a b : string) :
  starts_with_sep b = false -> exists post, path_join a b = a ++ post.
Proof.
  intros H. unfold path_join. rewrite H. destruct (_ || _); eauto.
Qed.

Lemma starts_with_sep_app (a b : string) :
  a <> "" -> starts_with_sep (a ++ b) = starts_with_sep a.
Proof. destruct a; [congruence | reflexivity]. Qed.

(** X12. When [main] returns, it has built exactly once, with
    [run = args.build]; it has created a programmer, for [args.prog_target]
    as given, and loaded a bitstream exactly when [--load] was given,
    whether or not [--build] was; the path loaded ends in
    [build_name + ".bit"], and it lies under [gateware_dir] unless
    [build_name] begins with a slash, which makes [os.path.join] drop the
    directory. *)
Theorem main_builds_then_loads core dir name a kw w w' acts :
  Cli.main core dir name a kw w = Ok (w', acts) ->
  Target.main core (sys_clk_freq a) kw (BaseSoC_class w) = Ok (tt, w') /\
  exists rest,
    acts = Build (build a) :: rest /\
    if load a then
      exists path,
        rest = [CreateProgrammer (prog_target a); LoadBitstream path] /\
        (exists pre, path = pre ++ name ++ ".bit") /\
        (starts_with_sep name = false -> exists post, path = dir ++ post) /\
        (starts_with_sep name = true -> path = name ++ ".bit")
    else rest = [].
Proof.
  unfold Cli.main.
  destruct (Target.main _ _ _ _) as [[[] w1]|e]; [|discriminate].
  intros [= <- <-]. split; [reflexivity|].
  eexists. split; [reflexivity|].
  destruct (load a); [|reflexivity].
  eexists. split; [reflexivity|]. split; [|split].
  - apply path_join_suffix.
  - intros H. apply path_join_prefix.
    destruct name; [reflexivity|].
    rewrite starts_with_sep_app by discriminate. exact H.
  - intros H. unfold path_join.
    destruct name; [discriminate|].
    rewrite starts_with_sep_app, H by discriminate. reflexivity.
Qed.

Lemma main_builds_then_loads_witness :
  let w' := built 50000000 20 0x40000000 sram_4k
                  (mem_map (BaseSoC_class fresh)) fresh in
  let acts := [Build false; CreateProgrammer "flash";
               LoadBitstream "build/gateware/crosslink_nx_evn.bit"] in
  Target.main keep_mem_map (sys_clk_freq load_flash) sram_4k
              (BaseSoC_class fresh) = Ok (tt, w') /\
  exists rest,
    acts = Build (build load_flash) :: rest /\
    if load load_flash then
      exists path,
        rest = [CreateProgrammer (prog_target load_flash);
                LoadBitstream path] /\
        (exists pre, path = pre ++ "crosslink_nx_evn" ++ ".bit") /\
        (starts_with_sep "crosslink_nx_evn" = false ->
         exists post, path = "build/gateware" ++ post) /\
        (starts_with_sep "crosslink_nx_evn" = true ->
         path = "crosslink_nx_evn" ++ ".bit")
    else rest = [].
Proof.
  apply (main_builds_then_loads keep_mem_map "build/gateware"
           "crosslink_nx_evn" load_flash sram_4k fresh).
  vm_compute. reflexivity.
Defined.

End CliFacts.

(** * The constraint, the default frequency, the SRAM and the LEDs *)

Section Construction.
Import Py Target.
Local Open Scope string_scope.
Local Open Scope list_scope.

Implicit Types (w : world) (kw : gmap string kwarg) (f : Z) (p : float)
  (d : num).

(** ** An int of less than 54 bits is a float, exactly *)

Lemma binary_round_53_value (s : bool) (m : positive) :
  Z.pos m < 2 ^ 53 ->
  exists m' e',
    binary_round prec emax s m 0 = S754_finite s m' e' /\
    SpecFloat.valid_binary prec emax (S754_finite s m' e') = true /\
    e' <= 0 /\ Z.pos m' = Z.pos m * 2 ^ (- e').
Proof.
  intros H. apply size_53 in H. rewrite <- digits2_pos_size in H.
  unfold binary_round.
  assert (F : fexp prec emax (Z.pos (digits2_pos m) + 0)
              = Z.pos (digits2_pos m) - 53).
  { unfold fexp, emin, prec, emax. lia. }
  rewrite F. unfold shl_align.
  destruct (Z.pos (digits2_pos m) - 53 - 0) eqn:E; try lia.
  - assert (F' : fexp prec emax (Z.pos (digits2_pos m) + 0) = 0) by lia.
    exists m, 0. repeat split.
    + apply binary_round_aux_exact; [exact F' | unfold emax, prec; lia].
    + cbn [SpecFloat.valid_binary]. unfold bounded, canonical_mantissa.
      rewrite F'. reflexivity.
    + lia.
    + simpl. lia.
  - assert (F' : fexp prec emax
                   (Z.pos (digits2_pos (Pos.iter xO m p))
                    + (Z.pos (digits2_pos m) - 53))
                 = Z.pos (digits2_pos m) - 53).
    { rewrite digits2_pos_iter. unfold fexp, emin, prec, emax. lia. }
    exists (Pos.iter xO m p), (Z.pos (digits2_pos m) - 53). repeat split.
    + apply binary_round_aux_exact; [exact F' | unfold emax, prec; lia].
    + cbn [SpecFloat.valid_binary]. unfold bounded, canonical_mantissa.
      rewrite F', Z.eqb_refl. apply Z.leb_le. unfold emax, prec. lia.
    + lia.
    + rewrite iter_xO_pow. f_equal. f_equal. lia.
Qed.

Lemma float_of_int_exact (n : Z) :
  n <> 0 -> Z.abs n < 2 ^ 53 ->
  exists y q,
    float_of_int n = Ok y /\ value y = Some q /\ (q == inject_Z n)%Q.
Proof.
  intros Hn Hb. unfold float_of_int, round_binary64.
  assert (G : forall s m, Z.pos m < 2 ^ 53 ->
            exists y q,
              match binary_round prec emax s m 0 with
              | S754_infinity _ => Raise OverflowError
              | sf => Ok (SF2Prim sf)
              end = Ok y /\ value y = Some q /\
              (q == inject_Z (if s then Z.neg m else Z.pos m))%Q).
  { intros s m Hm.
    destruct (binary_round_53_value s m Hm) as (m' & e' & -> & Hv & He & Hm').
    eexists _, _. split; [reflexivity|].
    unfold value. rewrite Prim2SF_SF2Prim by exact Hv.
    split; [reflexivity|].
    assert (Hp : 0 < 2 ^ (- e')) by (apply Z.pow_pos_nonneg; lia).
    unfold Qeq, inject_Z.
    destruct (Z.leb_spec 0 e') as [H0|H0]; cbn [Qnum Qden].
    - replace e' with 0 in * by lia. simpl in Hm'.
      destruct s; simpl; lia.
    - rewrite Z2Pos.id by exact Hp.
      destruct s; [change (Z.neg m') with (- Z.pos m');
                   change (Z.neg m) with (- Z.pos m)|]; lia. }
  destruct n as [|m|m]; [congruence| |]; cbn [binary_normalize].
  - apply (G false m). lia.
  - apply (G true m). lia.
Qed.

(** ** The constructor for any number *)

Lemma CRG_init_any_ok d y w :
  to_float d = Ok y -> is_zero d = false ->
  _CRG_init_any d w =
  Ok (CrgAny ("por", 25e6%float) (Clk "por", 25e6%float) ("sys", d)
             (Pad "gsrn" None),
      World (commands w) (extensions w) (requests w ++ [("gsrn", None)])
            (period_constraints w ++ [(Clk "sys", (1e9 / y)%float)])
            (core_calls w) (submodules w) (regions w) (csrs w) (mem_map w)).
Proof.
  intros Hy Hz. unfold _CRG_init_any, bindM, lift, request, truediv.
  rewrite Hy. cbn [bind]. rewrite Hz. reflexivity.
Qed.

Lemma CRG_init_any_raises d e w :
  truediv 1e9 d = Raise e -> _CRG_init_any d w = Raise e.
Proof.
  intros H. unfold _CRG_init_any, bindM, lift, request. rewrite H.
  reflexivity.
Qed.

(** C5, as the code has it.  For every requested frequency, an int or a
    float, that converts to a float and is not zero, [_CRG.__init__]
    completes and registers exactly one period constraint, on the clock of
    [cd_sys], the domain the PLL drives at [sys_clk_freq]; its value is
    the binary64 quotient of [1e9] by the frequency as a float, which is
    the frequency exactly for an int of less than 54 bits.  At zero the
    division raises [ZeroDivisionError], and an int too large for a float
    raises in the conversion; nothing is registered then.  The
    constructor for an int, the one [BaseSoC] calls, is the case [Int]. *)
Theorem period_constraint_registered d w :
  (forall y, to_float d = Ok y -> is_zero d = false ->
     exists c w',
       _CRG_init_any d w = Ok (c, w') /\
       any_pll_clkout c = ("sys", d) /\
       period_constraints w' =
         period_constraints w
         ++ [(Clk (fst (any_pll_clkout c)), (1e9 / y)%float)]) /\
  (forall y, to_float d = Ok y -> is_zero d = true ->
     _CRG_init_any d w = Raise ZeroDivisionError) /\
  (forall e, to_float d = Raise e -> _CRG_init_any d w = Raise e) /\
  (forall n, d = Int n -> n <> 0 -> Z.abs n < 2 ^ 53 ->
     exists y q,
       to_float d = Ok y /\ is_zero d = false /\
       value y = Some q /\ (q == inject_Z n)%Q) /\
  (forall n, d = Int n ->
     match _CRG_init n w with
     | Ok (c, w') => _CRG_init_any d w = Ok (crg_of_int c, w')
     | Raise e => _CRG_init_any d w = Raise e
     end).
Proof.
  split; [|split; [|split; [|split]]].
  - intros y Hy Hz. eexists _, _.
    split; [apply CRG_init_any_ok; eassumption|]. split; reflexivity.
  - intros y Hy Hz. apply CRG_init_any_raises. unfold truediv.
    rewrite Hy. cbn [bind]. rewrite Hz. reflexivity.
  - intros e He. apply CRG_init_any_raises. unfold truediv.
    rewrite He. reflexivity.
  - intros n -> Hn Hb.
    destruct (float_of_int_exact n Hn Hb) as (y & q & Hy & Hq & E).
    exists y, q. cbn [to_float is_zero].
    repeat split; try assumption. apply Z.eqb_neq, Hn.
  - intros n ->. unfold _CRG_init, _CRG_init_any, bindM, lift, request.
    change (truediv 1e9 (Int n)) with (py_truediv 1e9 n).
    destruct (py_truediv 1e9 n); reflexivity.
Qed.

Lemma period_constraint_registered_witness :
  (exists c w',
     _CRG_init_any (Flt 75e6) fresh = Ok (c, w') /\
     any_pll_clkout c = ("sys", Flt 75e6) /\
     period_constraints w' =
       period_constraints fresh
       ++ [(Clk (fst (any_pll_clkout c)), (1e9 / 75e6)%float)]) /\
  (exists y q,
     to_float (Int 100000000) = Ok y /\ is_zero (Int 100000000) = false /\
     value y = Some q /\ (q == inject_Z 100000000)%Q).
Proof.
  split.
  - destruct (period_constraint_registered (Flt 75e6) fresh) as [H _].
    apply H; reflexivity.
  - destruct (period_constraint_registered (Int 100000000) fresh)
      as (_ & _ & _ & H & _).
    apply (H 100000000); [reflexivity | discriminate | reflexivity].
Defined.

(** C5, as stated, fails: at a frequency of 0, which [main] hands over as
    it is, the constructor raises and registers nothing, for the int and
    for the float; so it does for an int of 1025 bits. *)
Lemma period_constraint_none_at_zero :
  _CRG_init 0 fresh = Raise ZeroDivisionError /\
  _CRG_init_any (Int 0) fresh = Raise ZeroDivisionError /\
  _CRG_init_any (Flt 0) fresh = Raise ZeroDivisionError /\
  _CRG_init_any (Int (2 ^ 1024)) fresh = Raise OverflowError /\
  main_sys_clk_freq (Some "0") = Ok 0.
Proof. vm_compute. repeat split; reflexivity. Qed.

(** ** The default frequency *)

(** C6. Without [--sys-clk-freq], [main] does exactly what it does with
    [--sys-clk-freq 75e6]; and when the keywords and the memory map let
    [BaseSoC.__init__] through, both runs end with the SoC core clocked at
    75000000 and with one more period constraint, on the [sys] clock, of
    [1e9/75e6], which is 13.33 ns to the nearest hundredth.  A frequency
    given as the float [75e6] has the same constraint registered. *)
Theorem default_sys_clk_freq core kw w :
  main core None kw w = main core (Some "75e6") kw w /\
  (no_duplicate ["ident"; "ident_version"] kw = true ->
   is_Some (core (mem_map (BaseSoC_class w)) !! "sram") ->
   exists w' p,
     main core None kw (BaseSoC_class w) = Ok (tt, w') /\
     main core (Some "75e6") kw (BaseSoC_class w) = Ok (tt, w') /\
     p = (1e9 / 75e6)%float /\
     (abs (p - 13.33) <? 0.005)%float = true /\
     period_constraints w' = period_constraints w ++ [(Clk "sys", p)] /\
     (exists c, core_calls w' = core_calls w ++ [c] /\
                core_clk_freq c = 75000000)) /\
  (exists c w',
     _CRG_init_any (Flt 75e6) w = Ok (c, w') /\
     period_constraints w' =
       period_constraints w ++ [(Clk "sys", (1e9 / 75e6)%float)]).
Proof.
  assert (E : main_sys_clk_freq None = main_sys_clk_freq (Some "75e6"))
    by (vm_compute; reflexivity).
  assert (E0 : main_sys_clk_freq None = Ok 75000000)
    by (vm_compute; reflexivity).
  assert (Hp : py_truediv 1e9 75000000 = Ok (1e9 / 75e6)%float)
    by (vm_compute; reflexivity).
  split; [unfold main; rewrite E; reflexivity|]. split.
  - intros Hdup [origin Hmap]. eexists _, (1e9 / 75e6)%float.
    assert (R : main core None kw (BaseSoC_class w)
                = Ok (tt, built 75000000 (1e9 / 75e6)%float origin kw
                            (core (mem_map (BaseSoC_class w))) w)).
    { unfold main, bindM, lift. rewrite E0.
      rewrite BaseSoC_init_cases, Hdup, Hp, Hmap. reflexivity. }
    split; [exact R|].
    split; [unfold main in *; rewrite <- E; exact R|].
    split; [reflexivity|]. split; [vm_compute; reflexivity|].
    unfold built. cbn [period_constraints core_calls].
    split; [reflexivity|]. eexists. split; reflexivity.
  - eexists _, _. split; [apply CRG_init_any_ok; reflexivity|]. reflexivity.
Qed.

Lemma default_sys_clk_freq_witness :
  exists w' p,
    main keep_mem_map None sram_4k (BaseSoC_class fresh) = Ok (tt, w') /\
    main keep_mem_map (Some "75e6") sram_4k (BaseSoC_class fresh)
    = Ok (tt, w') /\
    p = (1e9 / 75e6)%float /\
    (abs (p - 13.33) <? 0.005)%float = true /\
    period_constraints w' = period_constraints fresh ++ [(Clk "sys", p)] /\
    (exists c, core_calls w' = core_calls fresh ++ [c] /\
               core_clk_freq c = 75000000).
Proof.
  destruct (default_sys_clk_freq keep_mem_map sram_4k fresh) as (_ & H & _).
  apply H.
  - vm_compute. reflexivity.
  - exists 0x40000000. vm_compute. reflexivity.
Defined.

(** ** The SRAM and the LEDs *)

(** C9, as the code has it.  [BaseSoC.__init__] passes
    [integrated_sram_size = 0] to the SoC core whatever the caller gave for
    it, leaving the caller's other keywords as they are, adds the 32-bit
    wide LRAM of 131072 bytes as [spram], and registers its bus as the
    region ["sram"] of 131072 bytes at the address that the memory map
    holds for ["sram"] once [SoCCore.__init__] has run.  The class body
    puts 0x40000000 there, and that is the address when the core leaves
    the entry alone. *)
Theorem sram_in_lram core f p kw w origin :
  core (mem_map (BaseSoC_class w)) !! "sram" = Some origin ->
  no_duplicate ["ident"; "ident_version"] kw = true ->
  py_truediv 1e9 f = Ok p ->
  exists w',
    BaseSoC_init core f kw (BaseSoC_class w) = Ok (tt, w') /\
    (exists c,
       core_calls w' = core_calls w ++ [c] /\
       core_kwargs c !! "integrated_sram_size" = Some (VInt 0) /\
       forall k, k <> "integrated_sram_size" -> core_kwargs c !! k = kw !! k) /\
    In ("spram", LRAM 32 131072) (submodules w') /\
    regions w' = regions w ++ [Region "sram" origin "spram" (128 * kB)] /\
    mem_map (BaseSoC_class w) !! "sram" = Some 0x40000000 /\
    (core (mem_map (BaseSoC_class w)) !! "sram"
     = mem_map (BaseSoC_class w) !! "sram" -> origin = 0x40000000).
Proof.
  intros Hmap Hdup Hp. eexists.
  rewrite BaseSoC_init_cases, Hdup, Hp, Hmap.
  split; [reflexivity|]. unfold built.
  cbn [core_calls submodules regions]. split; [|split; [|split; [|split]]].
  - eexists. split; [reflexivity|]. cbn [core_kwargs]. split.
    + apply lookup_insert_eq.
    + intros k Hk. apply lookup_insert_ne. congruence.
  - apply in_or_app. right. simpl. auto.
  - reflexivity.
  - reflexivity.
  - intros E.
    assert (M : mem_map (BaseSoC_class w) !! "sram" = Some 0x40000000)
      by reflexivity.
    rewrite M in E. congruence.
Qed.

Lemma sram_in_lram_witness :
  exists w',
    BaseSoC_init keep_mem_map 75000000 sram_4k (BaseSoC_class fresh)
    = Ok (tt, w') /\
    (exists c,
       core_calls w' = core_calls fresh ++ [c] /\
       core_kwargs c !! "integrated_sram_size" = Some (VInt 0) /\
       forall k, k <> "integrated_sram_size" ->
                 core_kwargs c !! k = sram_4k !! k) /\
    In ("spram", LRAM 32 131072) (submodules w') /\
    regions w' =
      regions fresh ++ [Region "sram" 0x40000000 "spram" (128 * kB)] /\
    mem_map (BaseSoC_class fresh) !! "sram" = Some 0x40000000 /\
    (keep_mem_map (mem_map (BaseSoC_class fresh)) !! "sram"
     = mem_map (BaseSoC_class fresh) !! "sram" -> 0x40000000 = 0x40000000).
Proof.
  apply (sram_in_lram keep_mem_map 75000000 (1e9 / 75e6)%float sram_4k fresh
           0x40000000); vm_compute; reflexivity.
Defined.

(** C9, as stated, fails: with a core that moves the SRAM in the memory
    map, the same construction registers the LRAM at the core's address
    and nothing at 0x40000000. *)
Lemma sram_not_at_class_address :
  exists w',
    BaseSoC_init move_sram 75000000 sram_4k (BaseSoC_class fresh)
    = Ok (tt, w') /\
    regions w' = [Region "sram" 0x10000000 "spram" 131072] /\
    ~ In (Region "sram" 0x40000000 "spram" 131072) (regions w').
Proof.
  eexists. split; [vm_compute; reflexivity|].
  cbn [regions]. split; [reflexivity|].
  intros [H|[]]. discriminate H.
Qed.

(** C10. [BaseSoC.__init__] requests ["user_led"] fourteen times, with the
    numbers 0 to 13 in this order, and nothing else but ["gsrn"]; the
    fourteen pads, in this order, are the pads of the one [LedChaser] it
    adds, which is given [sys_clk_freq]. *)
Theorem user_leds_chaser core f p kw w :
  is_Some (core (mem_map (BaseSoC_class w)) !! "sram") ->
  no_duplicate ["ident"; "ident_version"] kw = true ->
  py_truediv 1e9 f = Ok p ->
  let leds := [0; 1; 2; 3; 4; 5; 6; 7; 8; 9; 10; 11; 12; 13] in
  exists w',
    BaseSoC_init core f kw (BaseSoC_class w) = Ok (tt, w') /\
    requests w' =
      requests w ++
      ("gsrn", None) :: map (fun i => ("user_led", Some i)) leds /\
    exists c,
      submodules w' =
        submodules w ++
        [("crg", CRG_ c); ("spram", LRAM 32 131072);
         ("leds", LedChaser (map (fun i => Pad "user_led" (Some i)) leds) f)].
Proof.
  intros [origin Hmap] Hdup Hp leds. eexists.
  rewrite BaseSoC_init_cases, Hdup, Hp, Hmap.
  split; [reflexivity|]. unfold built. cbn [requests submodules].
  split; [reflexivity|]. eexists. reflexivity.
Qed.

Lemma user_leds_chaser_witness :
  let leds := [0; 1; 2; 3; 4; 5; 6; 7; 8; 9; 10; 11; 12; 13] in
  exists w',
    BaseSoC_init move_sram 75000000 sram_4k (BaseSoC_class fresh)
    = Ok (tt, w') /\
    requests w' =
      requests fresh ++
      ("gsrn", None) :: map (fun i => ("user_led", Some i)) leds /\
    exists c,
      submodules w' =
        submodules fresh ++
        [("crg", CRG_ c); ("spram", LRAM 32 131072);
         ("leds", LedChaser (map (fun i => Pad "user_led" (Some i)) leds)
                            75000000)].
Proof.
  apply (user_leds_chaser move_sram 75000000 (1e9 / 75e6)%float sram_4k
           fresh); try (vm_compute; reflexivity).
  exists 0x10000000. vm_compute. reflexivity.
Defined.

End Construction.
